(** * Sudoku solver: a shallow embedding of [sudoku-solver.py]

    The development follows the script top to bottom: a small error monad
    for Python exceptions, the fragment of numpy the script relies on
    (2-D integer arrays, integer indexing with negative wrap-around, basic
    slices, [np.all], [np.argwhere], [np.copy]), the module-level tables
    [boxes] and [box_num_to_view], and then the functions of the script
    under their own names.  The [while] loop of [solve_backtracking] is
    driven by a fuel counter that bounds the number of iterations. *)

From Stdlib Require Import Ascii String DecimalString.
From Stdlib Require Import List ZArith Lia Bool Arith Sorted Permutation.
Import ListNotations.

Set Implicit Arguments.

(** ** Exceptions *)

Inductive exn : Type := IndexError | KeyError | ValueError.

Inductive result (A : Type) : Type :=
| Ok (a : A)
| Raise (e : exn).

Arguments Ok {A} a.
Arguments Raise {A} e.

Definition bind {A B : Type} (m : result A) (f : A -> result B) : result B :=
  match m with
  | Ok a => f a
  | Raise e => Raise e
  end.

Notation "x <- m ;; k" := (bind m (fun x => k))
  (at level 61, m at next level, right associativity).

(** ** The numpy fragment *)

Module Np.

(** A 2-D integer array is a list of rows.  Element types ([int64] for the
    literal tables, [uint8] for parsed puzzles) only ever hold 0..9 here, so
    entries are plain integers. *)
Definition ndarray2 : Type := list (list Z).

Definition nrows (a : ndarray2) : nat := length a.

Definition ncols (a : ndarray2) : nat :=
  match a with
  | [] => 0
  | row :: _ => length row
  end.

(** Integer indexing along an axis of length [n]: indices [0..n-1] are taken
    as they are, [-n..-1] count from the end, anything else raises
    [IndexError]. *)
Definition norm_index (n : nat) (i : Z) : result nat :=
  if ((0 <=? i) && (i <? Z.of_nat n))%Z then Ok (Z.to_nat i)
  else if ((- Z.of_nat n <=? i) && (i <? 0))%Z then Ok (Z.to_nat (i + Z.of_nat n))
  else Raise IndexError.

Fixpoint replace_nth {A : Type} (n : nat) (l : list A) (x : A) : list A :=
  match l, n with
  | [], _ => []
  | _ :: t, O => x :: t
  | h :: t, S n' => h :: replace_nth n' t x
  end.

(** [a[row, :]] *)
Definition getrow (a : ndarray2) (row : Z) : result (list Z) :=
  r <- norm_index (nrows a) row ;;
  Ok (nth r a []).

(** [a[:, col]] *)
Definition getcol (a : ndarray2) (col : Z) : result (list Z) :=
  c <- norm_index (ncols a) col ;;
  Ok (map (fun row => nth c row 0%Z) a).

(** [a[row, col]] *)
Definition getitem (a : ndarray2) (row col : Z) : result Z :=
  r <- norm_index (nrows a) row ;;
  c <- norm_index (ncols a) col ;;
  Ok (nth c (nth r a []) 0%Z).

(** The array obtained from [a] by the store [a[r, c] = v], indices already
    normalised. *)
Definition set_cell (a : ndarray2) (r c : nat) (v : Z) : ndarray2 :=
  replace_nth r a (replace_nth c (nth r a []) v).

(** [a[row, col] = v] *)
Definition setitem (a : ndarray2) (row col : Z) (v : Z) : result ndarray2 :=
  r <- norm_index (nrows a) row ;;
  c <- norm_index (ncols a) col ;;
  Ok (set_cell a r c v).

(** A basic slice [np.s_[r0:r1, c0:c1]] with non-negative constant bounds;
    slices clamp to the array and never raise. *)
Record slice2 : Type := S_ { row_start : nat; row_stop : nat;
                             col_start : nat; col_stop : nat }.

Definition getslice (a : ndarray2) (s : slice2) : ndarray2 :=
  map (fun row => firstn (col_stop s - col_start s) (skipn (col_start s) row))
      (firstn (row_stop s - row_start s) (skipn (row_start s) a)).

(** [num in v] for a 1-D array, and [num in a] for a 2-D one. *)
Definition contains1 (num : Z) (v : list Z) : bool := existsb (Z.eqb num) v.

Definition contains2 (num : Z) (a : ndarray2) : bool :=
  existsb (contains1 num) a.

(** [np.all(a)]: every entry is truthy, that is, non-zero. *)
Definition all (a : ndarray2) : bool :=
  forallb (forallb (fun x => negb (x =? 0)%Z)) a.

(** [np.argwhere(a == 0)]: the indices of the zero entries, in row-major
    order. *)
Fixpoint zeros_in_row (r c : nat) (row : list Z) : list (nat * nat) :=
  match row with
  | [] => []
  | x :: xs =>
      (if (x =? 0)%Z then [(r, c)] else []) ++ zeros_in_row r (S c) xs
  end.

Fixpoint argwhere_zero_from (r : nat) (a : ndarray2) : list (nat * nat) :=
  match a with
  | [] => []
  | row :: rest => zeros_in_row r 0 row ++ argwhere_zero_from (S r) rest
  end.

Definition argwhere_zero (a : ndarray2) : list (nat * nat) :=
  argwhere_zero_from 0 a.

(** [range(lo, hi)] *)
Definition range (lo hi : Z) : list Z :=
  map (fun k => (lo + Z.of_nat k)%Z) (seq 0 (Z.to_nat (hi - lo))).

(** [a.reshape(rows, cols)] of a flat array, row-major. *)
Fixpoint reshape (rows cols : nat) (v : list Z) : ndarray2 :=
  match rows with
  | O => []
  | S rows' => firstn cols v :: reshape rows' cols (skipn cols v)
  end.

End Np.

(** ** Module-level data *)

Definition board : Type := Np.ndarray2.

Definition sample_board : board :=
  [ [0; 0; 5; 1; 0; 3; 6; 0; 0];
    [0; 9; 7; 6; 0; 5; 0; 8; 3];
    [8; 0; 0; 0; 0; 0; 1; 2; 0];
    [0; 0; 0; 3; 9; 7; 0; 0; 2];
    [0; 0; 8; 0; 0; 0; 9; 0; 0];
    [7; 0; 0; 5; 6; 8; 0; 0; 0];
    [0; 7; 1; 0; 0; 0; 0; 0; 4];
    [4; 8; 0; 2; 0; 1; 5; 6; 0];
    [0; 0; 2; 9; 0; 4; 7; 0; 0] ]%Z.

(** [boxes] is indexed by cell row and column to obtain the box number;
    rows and columns are 0-indexed, boxes are 1-indexed. *)
Definition boxes : Np.ndarray2 :=
  [ [1; 1; 1; 2; 2; 2; 3; 3; 3];
    [1; 1; 1; 2; 2; 2; 3; 3; 3];
    [1; 1; 1; 2; 2; 2; 3; 3; 3];
    [4; 4; 4; 5; 5; 5; 6; 6; 6];
    [4; 4; 4; 5; 5; 5; 6; 6; 6];
    [4; 4; 4; 5; 5; 5; 6; 6; 6];
    [7; 7; 7; 8; 8; 8; 9; 9; 9];
    [7; 7; 7; 8; 8; 8; 9; 9; 9];
    [7; 7; 7; 8; 8; 8; 9; 9; 9] ]%Z.

(** [box_num_to_view] maps a box number to the slice of the puzzle that is
    the box.  A lookup of a missing key raises [KeyError]. *)
Definition box_num_to_view : list (Z * Np.slice2) :=
  [ (1, Np.S_ 0 3 0 3); (2, Np.S_ 0 3 3 6); (3, Np.S_ 0 3 6 9);
    (4, Np.S_ 3 6 0 3); (5, Np.S_ 3 6 3 6); (6, Np.S_ 3 6 6 9);
    (7, Np.S_ 6 9 0 3); (8, Np.S_ 6 9 3 6); (9, Np.S_ 6 9 6 9) ]%Z.

Fixpoint dict_get {V : Type} (d : list (Z * V)) (k : Z) : result V :=
  match d with
  | [] => Raise KeyError
  | (k', v) :: d' => if (k =? k')%Z then Ok v else dict_get d' k
  end.

(** ** The functions of the script *)

(** [show_board] formats rows 0 to 8 of [b] with nine placeholders each and
    prints the text.  It raises [IndexError] when a row is missing or
    shorter than nine; longer rows are accepted.  The printed text itself
    is not modelled: the solver's log records which board was shown. *)
Definition show_board (b : board) : result unit :=
  if forallb (fun i => match nth_error b i with
                       | Some row => 9 <=? length row
                       | None => false
                       end) (seq 0 9)
  then Ok tt else Raise IndexError.

Definition which_box (row col : Z) : result Z :=
  Np.getitem boxes row col.

Definition get_box (b : board) (box_num : Z) : result Np.ndarray2 :=
  v <- dict_get box_num_to_view box_num ;;
  Ok (Np.getslice b v).

Definition cell_is_empty (b : board) (row col : Z) : result bool :=
  x <- Np.getitem b row col ;;
  Ok (x =? 0)%Z.

(** The three membership tests are joined by [and], so they are evaluated
    left to right and the first failing one decides. *)
Definition move_is_valid (b : board) (num : Z) (row col : Z) : result bool :=
  rw <- Np.getrow b row ;;
  if Np.contains1 num rw then Ok false else
  cl <- Np.getcol b col ;;
  if Np.contains1 num cl then Ok false else
  bn <- which_box row col ;;
  bx <- get_box b bn ;;
  Ok (negb (Np.contains2 num bx)).

Definition board_is_full (b : board) : bool := Np.all b.

(** [np.argwhere(board == 0)[0]]: indexing the empty result raises
    [IndexError]. *)
Definition next_unassigned_cell (b : board) : result (Z * Z) :=
  match Np.argwhere_zero b with
  | [] => Raise IndexError
  | (r, c) :: _ => Ok (Z.of_nat r, Z.of_nat c)
  end.

(** The body of the [for num in range(1, 10)] loop, over the digits still
    to try, with the list [next_boards] built so far. *)
Fixpoint gen_loop (b : board) (row col : Z) (nums : list Z)
         (next_boards : list board) : result (list board) :=
  match nums with
  | [] => Ok next_boards
  | num :: nums' =>
      ok <- move_is_valid b num row col ;;
      if ok then
        new_board <- Np.setitem b row col num ;;
        gen_loop b row col nums' (next_boards ++ [new_board])
      else gen_loop b row col nums' next_boards
  end.

Definition gen_possible_boards (b : board) (row col : Z) : result (list board) :=
  gen_loop b row col (Np.range 1 10) [].

(** The deque used as a stack: [append] adds at the right end and [pop]
    removes from the right end. *)
Fixpoint pop {A : Type} (s : list A) : option (list A * A) :=
  match s with
  | [] => None
  | x :: s' =>
      match pop s' with
      | None => Some ([], x)
      | Some (rest, y) => Some (x :: rest, y)
      end
  end.

Definition append_all {A : Type} (s : list A) (items : list A) : list A :=
  fold_left (fun acc b => acc ++ [b]) items s.

(** What the solver does that a caller can observe besides its result:
    each board handed to [show_board], and each call of
    [gen_possible_boards]. *)
Inductive event : Type :=
| Shown (b : board)
| Expanded (b : board) (row col : Z).

Inductive outcome : Type :=
| Returned (b : board)
| ReturnedNone
| Raised (e : exn)
| OutOfFuel.

Definition emit (e : event) (r : outcome * list event) : outcome * list event :=
  (fst r, e :: snd r).

(** One unit of fuel is one evaluation of the loop condition
    [len(solution_stack) > 0]. *)
Fixpoint solve_loop (fuel : nat) (solution_stack : list board)
  : outcome * list event :=
  match fuel with
  | O => (OutOfFuel, [])
  | S fuel' =>
      match pop solution_stack with
      | None => (ReturnedNone, [])
      | Some (rest, b) =>
          match show_board b with
          | Raise e => (Raised e, [])
          | Ok _ =>
              emit (Shown b)
                (if board_is_full b then (Returned b, [])
                 else
                   match next_unassigned_cell b with
                   | Raise e => (Raised e, [])
                   | Ok (next_row, next_col) =>
                       emit (Expanded b next_row next_col)
                         (match gen_possible_boards b next_row next_col with
                          | Raise e => (Raised e, [])
                          | Ok next_boards =>
                              solve_loop fuel' (append_all rest next_boards)
                          end)
                   end)
          end
      end
  end.

Definition solve_backtracking (fuel : nat) (init_board : board)
  : outcome * list event :=
  solve_loop fuel [init_board].

(** Python strings, restricted to the code points U+0000 to U+00FF: a
    character is its Latin-1 byte.  On this range [str.isdigit] holds of
    the ten decimal digits and of the superscripts U+00B2, U+00B3 and
    U+00B9, while [int] accepts the ten decimal digits only and raises
    [ValueError] on any other single character. *)
Definition str_getitem (s : string) (i : nat) : result ascii :=
  match String.get i s with
  | Some ch => Ok ch
  | None => Raise IndexError
  end.

Definition isdigit (ch : ascii) : bool :=
  let n := nat_of_ascii ch in
  ((48 <=? n) && (n <=? 57)) || (n =? 178) || (n =? 179) || (n =? 185).

Definition int_of_char (ch : ascii) : result Z :=
  let n := nat_of_ascii ch in
  if (48 <=? n) && (n <=? 57) then Ok (Z.of_nat (n - 48))
  else Raise ValueError.

(** The body of [for i in range(len(board))] over the flat [uint8] array;
    the stored values are 0..9, well inside the element type. *)
Fixpoint parse_loop (s : string) (idxs : list nat) (flat : list Z)
  : result (list Z) :=
  match idxs with
  | [] => Ok flat
  | i :: idxs' =>
      ch <- str_getitem s i ;;
      v <- (if isdigit ch then int_of_char ch else Ok 0%Z) ;;
      parse_loop s idxs' (Np.replace_nth i flat v)
  end.

Definition parse_from_string (s : string) : result board :=
  let zeros := repeat 0%Z 81 in
  flat <- parse_loop s (seq 0 (length zeros)) zeros ;;
  Ok (Np.reshape 9 9 flat).

(** ** [gen_possible_boards] over a store

    Arrays are mutable objects.  To speak about what a call leaves
    untouched, this version runs [gen_possible_boards] on a store of
    arrays: a board is an address, [np.copy] allocates a fresh array and
    [new_board[row, col] = num] writes into the array at that address. *)
Module Store.

Definition addr : Type := nat.
Definition store : Type := list board.

Definition deref (h : store) (p : addr) : board := nth p h [].

Definition np_copy (h : store) (p : addr) : store * addr :=
  (h ++ [deref h p], length h).

Definition setitem (h : store) (p : addr) (row col : Z) (v : Z) : result store :=
  a <- Np.setitem (deref h p) row col v ;;
  Ok (Np.replace_nth p h a).

Fixpoint gen_loop (h : store) (b : addr) (row col : Z) (nums : list Z)
         (next_boards : list addr) : result (store * list addr) :=
  match nums with
  | [] => Ok (h, next_boards)
  | num :: nums' =>
      ok <- move_is_valid (deref h b) num row col ;;
      if ok then
        let (h1, new_board) := np_copy h b in
        h2 <- setitem h1 new_board row col num ;;
        gen_loop h2 b row col nums' (next_boards ++ [new_board])
      else gen_loop h b row col nums' next_boards
  end.

Definition gen_possible_boards (h : store) (b : addr) (row col : Z)
  : result (store * list addr) :=
  gen_loop h b row col (Np.range 1 10) [].

End Store.

(** ** Vocabulary of the statements *)

(** The entry at row [r], column [c], both counted from 0. *)
Definition cell (b : board) (r c : nat) : Z := nth c (nth r b []) 0%Z.

Definition is_9x9 (b : board) : Prop :=
  length b = 9 /\ Forall (fun row => length row = 9) b.

Definition entries_0_9 (b : board) : Prop :=
  forall r c, r < 9 -> c < 9 -> (0 <= cell b r c <= 9)%Z.

Definition in_row (b : board) (r : nat) (d : Z) : Prop :=
  exists c', c' < 9 /\ cell b r c' = d.

Definition in_col (b : board) (c : nat) (d : Z) : Prop :=
  exists r', r' < 9 /\ cell b r' c = d.

(** [d] occurs in the box that contains [(r, c)], boxes being read off the
    table [boxes]. *)
Definition in_box_of (b : board) (r c : nat) (d : Z) : Prop :=
  exists r' c', r' < 9 /\ c' < 9 /\
    which_box (Z.of_nat r') (Z.of_nat c') = which_box (Z.of_nat r) (Z.of_nat c) /\
    cell b r' c' = d.

Definition same_unit (r1 c1 r2 c2 : nat) : Prop :=
  r1 = r2 \/ c1 = c2 \/
  which_box (Z.of_nat r1) (Z.of_nat c1) = which_box (Z.of_nat r2) (Z.of_nat c2).

(** Row, column and box uniqueness of the non-zero entries. *)
Definition valid (b : board) : Prop :=
  forall r1 c1 r2 c2, r1 < 9 -> c1 < 9 -> r2 < 9 -> c2 < 9 ->
    (r1, c1) <> (r2, c2) -> same_unit r1 c1 r2 c2 ->
    cell b r1 c1 <> 0%Z -> cell b r1 c1 <> cell b r2 c2.

Definition full (b : board) : Prop :=
  forall r c, r < 9 -> c < 9 -> cell b r c <> 0%Z.

(** Executable counterparts, used to check concrete boards. *)
Definition all_cells : list (nat * nat) :=
  flat_map (fun r => map (fun c => (r, c)) (seq 0 9)) (seq 0 9).

Definition same_unitb (p q : nat * nat) : bool :=
  (fst p =? fst q) || (snd p =? snd q) ||
  match which_box (Z.of_nat (fst p)) (Z.of_nat (snd p)),
        which_box (Z.of_nat (fst q)) (Z.of_nat (snd q)) with
  | Ok x, Ok y => (x =? y)%Z
  | _, _ => false
  end.

Definition validb (b : board) : bool :=
  forallb (fun p =>
    forallb (fun q =>
      ((fst p =? fst q) && (snd p =? snd q))
      || negb (same_unitb p q)
      || (cell b (fst p) (snd p) =? 0)%Z
      || negb (cell b (fst p) (snd p) =? cell b (fst q) (snd q))%Z)
      all_cells) all_cells.

Definition is_9x9b (b : board) : bool :=
  (length b =? 9) && forallb (fun row => length row =? 9) b.

Definition entries_0_9b (b : board) : bool :=
  forallb (forallb (fun x => (0 <=? x) && (x <=? 9))%Z) b.

(** Number of empty cells, and the size of a complete 9-ary tree of a given
    depth, which bounds the number of loop iterations. *)
Definition count_zeros (b : board) : nat :=
  list_sum (map (fun row => length (filter (fun x => (x =? 0)%Z) row)) b).

Fixpoint tree_size (n : nat) : nat :=
  match n with
  | O => 1
  | S n' => 1 + 9 * tree_size n'
  end.

Definition stack_weight (s : list board) : nat :=
  list_sum (map (fun b => tree_size (count_zeros b)) s).

(** A digit is blocked at [(r, c)] when it occurs in the row, the column
    or the box of that cell. *)
Definition blocked (b : board) (r c : nat) (d : Z) : Prop :=
  in_row b r d \/ in_col b c d \/ in_box_of b r c d.

(** The three membership tests of [move_is_valid] on a 9x9 board, with the
    indices normalised and the box slice looked up. *)
Definition in_rowb (b : board) (r : nat) (d : Z) : bool :=
  Np.contains1 d (nth r b []).

Definition in_colb (b : board) (c : nat) (d : Z) : bool :=
  Np.contains1 d (map (fun row => nth c row 0%Z) b).

Definition in_boxb (b : board) (r c : nat) (d : Z) : bool :=
  Np.contains2 d
    (Np.getslice b
       (Np.S_ (3 * (r / 3)) (3 * (r / 3) + 3) (3 * (c / 3)) (3 * (c / 3) + 3))).

Definition blockedb (b : board) (r c : nat) (d : Z) : bool :=
  in_rowb b r d || in_colb b c d || in_boxb b r c d.

(** The digits [gen_possible_boards] keeps for the cell [(r, c)], in the
    order of the loop. *)
Definition legal_digits (b : board) (r c : nat) : list Z :=
  filter (fun d => negb (blockedb b r c d)) (Np.range 1 10).

(** The stacks the loop of [solve_backtracking] goes through: the initial
    one, and the one left by an iteration that pops a board, finds it not
    full and pushes its children. *)
Inductive reachable (init : board) : list board -> Prop :=
| reach_init : reachable init [init]
| reach_step (s rest : list board) (b : board) (row col : Z)
             (next_boards : list board) :
    reachable init s ->
    pop s = Some (rest, b) ->
    show_board b = Ok tt ->
    board_is_full b = false ->
    next_unassigned_cell b = Ok (row, col) ->
    gen_possible_boards b row col = Ok next_boards ->
    reachable init (append_all rest next_boards).

(** The cells of a 9x9 array that a slice selects, row by row, and the
    member cells of a box, read off [box_num_to_view]. *)
Definition slice_cells (s : Np.slice2) : list (nat * nat) :=
  flat_map (fun r => map (fun c => (r, c))
                         (seq (Np.col_start s) (Np.col_stop s - Np.col_start s)))
           (seq (Np.row_start s) (Np.row_stop s - Np.row_start s)).

Definition cells_of_box (box_num : Z) : result (list (nat * nat)) :=
  v <- dict_get box_num_to_view box_num ;;
  Ok (slice_cells v).

Definition cell_eqb (p q : nat * nat) : bool :=
  (fst p =? fst q) && (snd p =? snd q).

Fixpoint nodupb (l : list (nat * nat)) : bool :=
  match l with
  | [] => true
  | p :: t => negb (existsb (cell_eqb p) t) && nodupb t
  end.

Definition inclb (l l' : list (nat * nat)) : bool :=
  forallb (fun p => existsb (cell_eqb p) l') l.

(** Boards used as concrete inputs: the solution the search finds for
    [sample_board], and a board whose first empty cell admits no digit
    (1 to 8 stand in its row, 9 in its column). *)
Definition sample_solution : board :=
  [ [2; 4; 5; 1; 8; 3; 6; 9; 7];
    [1; 9; 7; 6; 2; 5; 4; 8; 3];
    [8; 3; 6; 7; 4; 9; 1; 2; 5];
    [6; 1; 4; 3; 9; 7; 8; 5; 2];
    [3; 5; 8; 4; 1; 2; 9; 7; 6];
    [7; 2; 9; 5; 6; 8; 3; 4; 1];
    [9; 7; 1; 8; 5; 6; 2; 3; 4];
    [4; 8; 3; 2; 7; 1; 5; 6; 9];
    [5; 6; 2; 9; 3; 4; 7; 1; 8] ]%Z.

Definition dead_end_board : board :=
  [ [0; 1; 2; 3; 4; 5; 6; 7; 8];
    [0; 0; 0; 0; 0; 0; 0; 0; 0];
    [0; 0; 0; 0; 0; 0; 0; 0; 0];
    [9; 0; 0; 0; 0; 0; 0; 0; 0];
    [0; 0; 0; 0; 0; 0; 0; 0; 0];
    [0; 0; 0; 0; 0; 0; 0; 0; 0];
    [0; 0; 0; 0; 0; 0; 0; 0; 0];
    [0; 0; 0; 0; 0; 0; 0; 0; 0];
    [0; 0; 0; 0; 0; 0; 0; 0; 0] ]%Z.

(** A line of 81 characters that starts with the superscript two
    (U+00B2) and goes on with dots. *)
Definition superscript_line : string :=
  String (ascii_of_nat 178) (string_of_list_ascii (repeat "."%char 80)).

(** What the loader stores for a character when it stores anything: the
    value of ['1'] to ['9'], and 0 for every other character.  [is_decimal]
    holds of the characters that [int] accepts. *)
Definition is_decimal (ch : ascii) : bool :=
  let n := nat_of_ascii ch in (48 <=? n) && (n <=? 57).

Definition digit_value (ch : ascii) : Z :=
  let n := nat_of_ascii ch in
  if (49 <=? n) && (n <=? 57) then Z.of_nat (n - 48) else 0%Z.

(** [g] keeps every digit already placed in [b]. *)
Definition extends (b g : board) : Prop :=
  forall r c, r < 9 -> c < 9 -> cell b r c <> 0%Z -> cell g r c = cell b r c.

Definition extendsb (b g : board) : bool :=
  forallb (fun p => (cell b (fst p) (snd p) =? 0)%Z
                    || (cell g (fst p) (snd p) =? cell b (fst p) (snd p))%Z)
          all_cells.

(** A solved grid: 9x9, digits 1..9 everywhere, no digit twice in a row,
    a column or a box. *)
Definition solution (g : board) : Prop :=
  is_9x9 g /\ entries_0_9 g /\ full g /\ valid g.





(** ** The text that [show_board] prints

    [show_board] joins thirteen lines with newlines, four rules and nine
    rows formatted with nine placeholders each, replaces every ['0'] of the
    result by ['.'] and prints it.  A placeholder is filled with the
    decimal text of the entry.  [show_board_text] is the string handed to
    [print]. *)
Definition str_of_int (x : Z) : string := NilZero.string_of_int (Z.to_int x).

Definition newline : string := String (ascii_of_nat 10) EmptyString.

Definition rule_line : string := "-------------------------------".

(** ['| {}  {}  {} | {}  {}  {} | {}  {}  {} |'.format] on the unpacked
    row: a row that
    is too short for the placeholders raises [IndexError], further entries
    are ignored. *)
Definition format_row (row : list Z) : result string :=
  match row with
  | x0 :: x1 :: x2 :: x3 :: x4 :: x5 :: x6 :: x7 :: x8 :: _ =>
      Ok ("| " ++ str_of_int x0 ++ "  " ++ str_of_int x1 ++ "  "
               ++ str_of_int x2 ++ " | "
               ++ str_of_int x3 ++ "  " ++ str_of_int x4 ++ "  "
               ++ str_of_int x5 ++ " | "
               ++ str_of_int x6 ++ "  " ++ str_of_int x7 ++ "  "
               ++ str_of_int x8 ++ " |")%string
  | _ => Raise IndexError
  end.

(** [b[i]] for a constant row number [i]. *)
Definition board_row (b : board) (i : nat) : result (list Z) :=
  match nth_error b i with
  | Some row => Ok row
  | None => Raise IndexError
  end.

(** [s.replace(old, new)] for single characters. *)
Fixpoint replace_char (old new : ascii) (s : string) : string :=
  match s with
  | EmptyString => EmptyString
  | String ch s' =>
      String (if Ascii.eqb ch old then new else ch) (replace_char old new s')
  end.

Definition show_board_text (b : board) : result string :=
  l0 <- (row <- board_row b 0 ;; format_row row) ;;
  l1 <- (row <- board_row b 1 ;; format_row row) ;;
  l2 <- (row <- board_row b 2 ;; format_row row) ;;
  l3 <- (row <- board_row b 3 ;; format_row row) ;;
  l4 <- (row <- board_row b 4 ;; format_row row) ;;
  l5 <- (row <- board_row b 5 ;; format_row row) ;;
  l6 <- (row <- board_row b 6 ;; format_row row) ;;
  l7 <- (row <- board_row b 7 ;; format_row row) ;;
  l8 <- (row <- board_row b 8 ;; format_row row) ;;
  Ok (replace_char "0" "."
        (String.concat newline
           [rule_line; l0; l1; l2; rule_line; l3; l4; l5;
            rule_line; l6; l7; l8; rule_line])).




(** A full board with a conflict: [sample_solution] with the entry at row
    0, column 1 changed to the 2 that already stands at row 0, column 0. *)
Definition conflict_board : board :=
  Np.set_cell sample_solution 0 1 2.

(** * Properties *)

(** ** Lists, the stack and indexing *)

Section ListFacts.

Context {A : Type}.

Lemma length_replace_nth (n : nat) (l : list A) (x : A) :
  length (Np.replace_nth n l x) = length l.
Proof.
  revert n; induction l as [|h t IH]; intros [|n]; simpl; auto.
Qed.

Lemma nth_replace_nth_eq (n : nat) (l : list A) (x d : A) :
  n < length l -> nth n (Np.replace_nth n l x) d = x.
Proof.
  revert n; induction l as [|h t IH]; intros [|n] H; simpl in *; try lia; auto.
  apply IH; lia.
Qed.

Lemma nth_replace_nth_neq (n m : nat) (l : list A) (x d : A) :
  n <> m -> nth m (Np.replace_nth n l x) d = nth m l d.
Proof.
  revert n m; induction l as [|h t IH]; intros [|n] [|m] H; simpl; auto;
    congruence.
Qed.

Lemma Forall_replace_nth (P : A -> Prop) (n : nat) (l : list A) (x : A) :
  Forall P l -> P x -> Forall P (Np.replace_nth n l x).
Proof.
  intros Hl Hx; revert n; induction Hl as [|h t Hh Ht IH]; intros [|n];
    simpl; auto.
Qed.

Lemma pop_snoc (s : list A) (x : A) : pop (s ++ [x]) = Some (s, x).
Proof.
  induction s as [|h t IH]; simpl; [reflexivity|]. now rewrite IH.
Qed.

Lemma pop_some (s rest : list A) (x : A) :
  pop s = Some (rest, x) -> s = rest ++ [x].
Proof.
  revert rest; induction s as [|h t IH]; simpl; intros rest H; [discriminate|].
  destruct (pop t) as [[r y]|] eqn:E.
  - injection H as <- <-. simpl. f_equal. now apply IH.
  - injection H as <- <-. destruct t as [|h' t']; [reflexivity|].
    simpl in E. destruct (pop t') as [[? ?]|]; discriminate.
Qed.

Lemma pop_none (s : list A) : pop s = None -> s = [].
Proof.
  destruct s as [|h t]; simpl; [reflexivity|].
  destruct (pop t) as [[? ?]|]; discriminate.
Qed.

Lemma append_all_app (s items : list A) : append_all s items = s ++ items.
Proof.
  unfold append_all; revert s; induction items as [|b t IH]; intros s; simpl.
  - now rewrite app_nil_r.
  - rewrite IH, <- app_assoc. reflexivity.
Qed.

End ListFacts.

Lemma Ok_inj (A : Type) (x y : A) : Ok x = Ok y -> x = y.
Proof. congruence. Qed.

Lemma norm_index_of_nat (n r : nat) :
  r < n -> Np.norm_index n (Z.of_nat r) = Ok r.
Proof.
  intros H; unfold Np.norm_index.
  replace (0 <=? Z.of_nat r)%Z with true by (symmetry; apply Z.leb_le; lia).
  replace (Z.of_nat r <? Z.of_nat n)%Z with true by (symmetry; apply Z.ltb_lt; lia).
  simpl. now rewrite Nat2Z.id.
Qed.

Section Shape.

Variable b : board.
Hypothesis Hb : is_9x9 b.

Lemma nrows_9x9 : Np.nrows b = 9.
Proof. exact (proj1 Hb). Qed.

Lemma row_length_9x9 (r : nat) : r < 9 -> length (nth r b []) = 9.
Proof.
  intros Hr. destruct Hb as [Hl Hf].
  rewrite Forall_forall in Hf. apply Hf, nth_In. lia.
Qed.

Lemma ncols_9x9 : Np.ncols b = 9.
Proof.
  destruct Hb as [Hl Hf]. destruct b as [|row rest]; [discriminate|].
  simpl. now inversion Hf.
Qed.

Lemma getitem_cell (r c : nat) :
  r < 9 -> c < 9 -> Np.getitem b (Z.of_nat r) (Z.of_nat c) = Ok (cell b r c).
Proof.
  intros Hr Hc. unfold Np.getitem.
  rewrite nrows_9x9, ncols_9x9, !norm_index_of_nat by assumption.
  reflexivity.
Qed.

Lemma getrow_9x9 (r : nat) :
  r < 9 -> Np.getrow b (Z.of_nat r) = Ok (nth r b []).
Proof.
  intros Hr. unfold Np.getrow.
  now rewrite nrows_9x9, norm_index_of_nat.
Qed.

Lemma getcol_9x9 (c : nat) :
  c < 9 -> Np.getcol b (Z.of_nat c) = Ok (map (fun row => nth c row 0%Z) b).
Proof.
  intros Hc. unfold Np.getcol.
  now rewrite ncols_9x9, norm_index_of_nat.
Qed.

Lemma setitem_9x9 (r c : nat) (v : Z) :
  r < 9 -> c < 9 ->
  Np.setitem b (Z.of_nat r) (Z.of_nat c) v = Ok (Np.set_cell b r c v).
Proof.
  intros Hr Hc. unfold Np.setitem.
  rewrite nrows_9x9, ncols_9x9, !norm_index_of_nat by assumption.
  reflexivity.
Qed.

Lemma cell_set_cell (r c : nat) (v : Z) (r' c' : nat) :
  r < 9 -> c < 9 ->
  cell (Np.set_cell b r c v) r' c' =
  if (r' =? r) && (c' =? c) then v else cell b r' c'.
Proof.
  intros Hr Hc. unfold cell, Np.set_cell.
  destruct (Nat.eqb_spec r' r) as [->|Hne]; simpl.
  - rewrite nth_replace_nth_eq by (rewrite (proj1 Hb); exact Hr).
    destruct (Nat.eqb_spec c' c) as [->|Hnc].
    + apply nth_replace_nth_eq. now rewrite row_length_9x9.
    + apply nth_replace_nth_neq. congruence.
  - rewrite nth_replace_nth_neq by congruence. reflexivity.
Qed.

Lemma is_9x9_set_cell (r c : nat) (v : Z) :
  r < 9 -> is_9x9 (Np.set_cell b r c v).
Proof.
  intros Hr. unfold Np.set_cell. split.
  - rewrite length_replace_nth. exact (proj1 Hb).
  - apply Forall_replace_nth; [exact (proj2 Hb)|].
    rewrite length_replace_nth. now apply row_length_9x9.
Qed.

Lemma show_board_9x9 : show_board b = Ok tt.
Proof.
  unfold show_board.
  replace (forallb _ (seq 0 9)) with true; [reflexivity|].
  symmetry. apply forallb_forall. intros i Hi. apply in_seq in Hi.
  rewrite (nth_error_nth' b []) by (rewrite (proj1 Hb); lia).
  rewrite row_length_9x9 by lia. reflexivity.
Qed.

End Shape.

(** ** The box tables *)

Lemma which_box_view (r c : nat) :
  r < 9 -> c < 9 ->
  which_box (Z.of_nat r) (Z.of_nat c) = Ok (Z.of_nat (3 * (r / 3) + c / 3 + 1)) /\
  dict_get box_num_to_view (Z.of_nat (3 * (r / 3) + c / 3 + 1)) =
    Ok (Np.S_ (3 * (r / 3)) (3 * (r / 3) + 3) (3 * (c / 3)) (3 * (c / 3) + 3)).
Proof.
  intros Hr Hc.
  do 9 (destruct r as [|r];
        [do 9 (destruct c as [|c]; [split; reflexivity|]); lia|]).
  lia.
Qed.

Lemma same_box_iff (r1 c1 r2 c2 : nat) :
  r1 < 9 -> c1 < 9 -> r2 < 9 -> c2 < 9 ->
  which_box (Z.of_nat r1) (Z.of_nat c1) = which_box (Z.of_nat r2) (Z.of_nat c2)
  <-> r1 / 3 = r2 / 3 /\ c1 / 3 = c2 / 3.
Proof.
  intros H1 H2 H3 H4.
  rewrite (proj1 (which_box_view H1 H2)), (proj1 (which_box_view H3 H4)).
  split.
  - intros E. apply Ok_inj, Nat2Z.inj in E.
    assert (c1 / 3 < 3) by (apply Nat.Div0.div_lt_upper_bound; lia).
    assert (c2 / 3 < 3) by (apply Nat.Div0.div_lt_upper_bound; lia).
    lia.
  - intros [-> ->]. reflexivity.
Qed.

(** ** Membership tests *)

Ltac div3 r :=
  let H := fresh "Hdiv" in
  let H' := fresh "Hmod" in
  pose proof (Nat.div_mod_eq r 3) as H;
  pose proof (Nat.mod_upper_bound r 3 ltac:(lia)) as H'.

Lemma contains1_In (d : Z) (l : list Z) : Np.contains1 d l = true <-> In d l.
Proof.
  unfold Np.contains1. rewrite existsb_exists. split.
  - intros [x [Hx E]]. apply Z.eqb_eq in E. now subst.
  - intros H. exists d. split; [assumption|apply Z.eqb_refl].
Qed.

Lemma In_firstn_skipn (A : Type) (x d : A) (n k : nat) (l : list A) :
  k + n <= length l ->
  In x (firstn n (skipn k l)) <-> exists i, k <= i < k + n /\ nth i l d = x.
Proof.
  intros Hlen.
  assert (Hl : length (firstn n (skipn k l)) = n)
    by (rewrite length_firstn, length_skipn; lia).
  split.
  - intros H. apply (In_nth _ _ d) in H. destruct H as [j [Hj E]].
    rewrite Hl in Hj. rewrite nth_firstn, nth_skipn in E.
    replace (j <? n) with true in E by (symmetry; apply Nat.ltb_lt; lia).
    exists (k + j). split; [lia|assumption].
  - intros [i [Hi E]]. subst x.
    replace (nth i l d) with (nth (i - k) (firstn n (skipn k l)) d).
    + apply nth_In. lia.
    + rewrite nth_firstn, nth_skipn.
      replace (i - k <? n) with true by (symmetry; apply Nat.ltb_lt; lia).
      f_equal. lia.
Qed.

Section Membership.

Variable b : board.
Hypothesis Hb : is_9x9 b.

Lemma in_rowb_iff (r : nat) (d : Z) :
  r < 9 -> in_rowb b r d = true <-> in_row b r d.
Proof.
  intros Hr. unfold in_rowb, in_row, cell. rewrite contains1_In.
  pose proof (row_length_9x9 Hb Hr) as Hlen. split.
  - intros H. apply (In_nth _ _ 0%Z) in H. destruct H as [c [Hc E]].
    exists c. split; [lia|assumption].
  - intros [c [Hc E]]. subst d. apply nth_In. lia.
Qed.

Lemma in_colb_iff (c : nat) (d : Z) :
  in_colb b c d = true <-> in_col b c d.
Proof.
  unfold in_colb, in_col, cell. rewrite contains1_In, in_map_iff. split.
  - intros [row [E H]]. apply (In_nth _ _ []) in H. destruct H as [r [Hr E']].
    exists r. rewrite (proj1 Hb) in Hr. split; [assumption|]. now rewrite E'.
  - intros [r [Hr E]]. exists (nth r b []). split; [assumption|].
    apply nth_In. rewrite (proj1 Hb). assumption.
Qed.

Lemma in_boxb_iff (r c : nat) (d : Z) :
  r < 9 -> c < 9 -> in_boxb b r c d = true <-> in_box_of b r c d.
Proof.
  intros Hr Hc. unfold in_boxb, in_box_of, Np.contains2, Np.getslice.
  cbn [Np.row_start Np.row_stop Np.col_start Np.col_stop].
  replace (3 * (r / 3) + 3 - 3 * (r / 3)) with 3 by lia.
  replace (3 * (c / 3) + 3 - 3 * (c / 3)) with 3 by lia.
  rewrite existsb_exists. div3 r. div3 c. split.
  - intros [l [Hl Hd]]. apply in_map_iff in Hl. destruct Hl as [row [<- Hrow]].
    apply contains1_In in Hd.
    apply (In_firstn_skipn _ []) in Hrow; [|rewrite (proj1 Hb); lia].
    destruct Hrow as [r' [Hr' <-]].
    assert (Hr9 : r' < 9) by lia.
    apply (In_firstn_skipn _ 0%Z) in Hd;
      [|rewrite (row_length_9x9 Hb Hr9); lia].
    destruct Hd as [c' [Hc' E]].
    assert (Hc9 : c' < 9) by lia.
    exists r', c'. repeat split; try assumption.
    apply same_box_iff; try assumption. div3 r'. div3 c'. lia.
  - intros [r' [c' [Hr' [Hc' [Hbox E]]]]].
    apply same_box_iff in Hbox; try assumption. div3 r'. div3 c'.
    exists (firstn 3 (skipn (3 * (c / 3)) (nth r' b []))). split.
    + apply in_map_iff. exists (nth r' b []). split; [reflexivity|].
      apply (In_firstn_skipn _ []); [rewrite (proj1 Hb); lia|].
      exists r'. split; [lia|reflexivity].
    + apply contains1_In.
      apply (In_firstn_skipn _ 0%Z); [rewrite (row_length_9x9 Hb Hr'); lia|].
      exists c'. split; [lia|exact E].
Qed.

Lemma blockedb_iff (r c : nat) (d : Z) :
  r < 9 -> c < 9 -> blockedb b r c d = true <-> blocked b r c d.
Proof.
  intros Hr Hc. unfold blockedb, blocked.
  rewrite !orb_true_iff, in_rowb_iff, in_colb_iff, in_boxb_iff by assumption.
  tauto.
Qed.

Lemma move_is_valid_eq (r c : nat) (d : Z) :
  r < 9 -> c < 9 ->
  move_is_valid b d (Z.of_nat r) (Z.of_nat c) = Ok (negb (blockedb b r c d)).
Proof.
  intros Hr Hc. unfold move_is_valid, blockedb.
  rewrite (getrow_9x9 Hb Hr). cbn [bind]. fold (in_rowb b r d).
  destruct (in_rowb b r d); [reflexivity|].
  rewrite (getcol_9x9 Hb Hc). cbn [bind]. fold (in_colb b c d).
  destruct (in_colb b c d); [reflexivity|].
  destruct (which_box_view Hr Hc) as [Hw Hv].
  rewrite Hw. cbn [bind]. unfold get_box. rewrite Hv. reflexivity.
Qed.

End Membership.

(** ** The branch generator *)

Lemma range_1_10 : Np.range 1 10 = [1; 2; 3; 4; 5; 6; 7; 8; 9]%Z.
Proof. reflexivity. Qed.

Lemma gen_loop_eq (b : board) (r c : nat) (nums : list Z) (acc : list board) :
  is_9x9 b -> r < 9 -> c < 9 ->
  gen_loop b (Z.of_nat r) (Z.of_nat c) nums acc =
  Ok (acc ++ map (Np.set_cell b r c)
                 (filter (fun d => negb (blockedb b r c d)) nums)).
Proof.
  intros Hb Hr Hc. revert acc.
  induction nums as [|d nums IH]; intros acc; simpl.
  - now rewrite app_nil_r.
  - rewrite (move_is_valid_eq Hb d Hr Hc). cbn [bind].
    destruct (negb (blockedb b r c d)).
    + rewrite (setitem_9x9 Hb d Hr Hc). cbn [bind].
      rewrite IH, <- app_assoc. reflexivity.
    + apply IH.
Qed.

Lemma gen_possible_boards_eq (b : board) (r c : nat) :
  is_9x9 b -> r < 9 -> c < 9 ->
  gen_possible_boards b (Z.of_nat r) (Z.of_nat c) =
  Ok (map (Np.set_cell b r c) (legal_digits b r c)).
Proof.
  intros Hb Hr Hc. unfold gen_possible_boards, legal_digits.
  now rewrite (gen_loop_eq _ _ Hb Hr Hc).
Qed.

Lemma in_legal_digits (b : board) (r c : nat) (d : Z) :
  In d (legal_digits b r c) <-> (1 <= d <= 9)%Z /\ blockedb b r c d = false.
Proof.
  unfold legal_digits. rewrite filter_In, negb_true_iff, range_1_10.
  simpl. intuition lia.
Qed.

Lemma length_legal_digits (b : board) (r c : nat) :
  length (legal_digits b r c) <= 9.
Proof.
  unfold legal_digits.
  etransitivity; [apply filter_length_le|]. rewrite range_1_10. simpl. lia.
Qed.

Lemma StronglySorted_filter (A : Type) (R : A -> A -> Prop) (f : A -> bool)
      (l : list A) :
  StronglySorted R l -> StronglySorted R (filter f l).
Proof.
  induction 1 as [|a l Hl IH Ha]; simpl; [constructor|].
  destruct (f a); [|assumption].
  constructor; [assumption|].
  rewrite Forall_forall in *. intros x Hx. apply Ha.
  now apply filter_In in Hx.
Qed.

Lemma legal_digits_sorted (b : board) (r c : nat) :
  StronglySorted Z.lt (legal_digits b r c).
Proof.
  unfold legal_digits. apply StronglySorted_filter. rewrite range_1_10.
  repeat constructor.
Qed.

(** ** Validity is kept by filling a cell with a digit that is not blocked *)

Lemma same_unit_sym (r1 c1 r2 c2 : nat) :
  same_unit r1 c1 r2 c2 -> same_unit r2 c2 r1 c1.
Proof. unfold same_unit. intuition congruence. Qed.

Lemma same_unit_blocked (b : board) (r c r' c' : nat) :
  r' < 9 -> c' < 9 -> same_unit r c r' c' -> blocked b r c (cell b r' c').
Proof.
  intros Hr' Hc' [->|[->|Hbox]].
  - left. now exists c'.
  - right; left. now exists r'.
  - right; right. exists r', c'. repeat split; auto.
Qed.

Lemma valid_set_cell (b : board) (r c : nat) (d : Z) :
  is_9x9 b -> valid b -> r < 9 -> c < 9 -> ~ blocked b r c d ->
  valid (Np.set_cell b r c d).
Proof.
  intros Hb Hv Hr Hc Hd r1 c1 r2 c2 H1 H2 H3 H4 Hne Hu.
  rewrite !(cell_set_cell Hb) by assumption.
  destruct (Nat.eqb_spec r1 r) as [->|Hr1]; simpl;
    [destruct (Nat.eqb_spec c1 c) as [->|Hc1]; simpl|].
  - intros _.
    destruct (Nat.eqb_spec r2 r) as [->|Hr2]; simpl;
      [destruct (Nat.eqb_spec c2 c) as [->|Hc2]; simpl|];
      try congruence;
      intros E; apply Hd; rewrite E; now apply same_unit_blocked.
  - destruct ((r2 =? r) && (c2 =? c)) eqn:E2.
    + apply andb_true_iff in E2. destruct E2 as [E2r E2c].
      apply Nat.eqb_eq in E2r, E2c. subst r2 c2.
      intros _ E. apply Hd. rewrite <- E.
      apply same_unit_blocked; auto using same_unit_sym.
    + apply Hv; assumption.
  - destruct ((r2 =? r) && (c2 =? c)) eqn:E2.
    + apply andb_true_iff in E2. destruct E2 as [E2r E2c].
      apply Nat.eqb_eq in E2r, E2c. subst r2 c2.
      intros _ E. apply Hd. rewrite <- E.
      apply same_unit_blocked; auto using same_unit_sym.
    + apply Hv; assumption.
Qed.

(** ** Fullness and the next unassigned cell *)

Lemma board_is_full_iff (b : board) :
  is_9x9 b -> board_is_full b = true <-> full b.
Proof.
  intros Hb. unfold board_is_full, Np.all, full, cell.
  rewrite forallb_forall. split.
  - intros H r c Hr Hc.
    assert (Hrow : In (nth r b []) b) by (apply nth_In; rewrite (proj1 Hb); lia).
    specialize (H _ Hrow). rewrite forallb_forall in H.
    assert (Hx : In (nth c (nth r b []) 0%Z) (nth r b []))
      by (apply nth_In; rewrite (row_length_9x9 Hb Hr); lia).
    specialize (H _ Hx). now apply negb_true_iff, Z.eqb_neq in H.
  - intros H row Hrow. apply forallb_forall. intros x Hx.
    apply (In_nth _ _ []) in Hrow. destruct Hrow as [r [Hr <-]].
    rewrite (proj1 Hb) in Hr.
    apply (In_nth _ _ 0%Z) in Hx. destruct Hx as [c [Hc <-]].
    rewrite (row_length_9x9 Hb Hr) in Hc.
    apply negb_true_iff, Z.eqb_neq. now apply H.
Qed.

Lemma zeros_in_row_head (r c0 : nat) (row : list Z) :
  match Np.zeros_in_row r c0 row with
  | [] => forall i, i < length row -> nth i row 0%Z <> 0%Z
  | (r', c') :: _ =>
      r' = r /\ c0 <= c' /\ c' - c0 < length row /\
      nth (c' - c0) row 0%Z = 0%Z /\
      forall i, i < c' - c0 -> nth i row 0%Z <> 0%Z
  end.
Proof.
  revert c0; induction row as [|x xs IH]; intros c0; simpl.
  - intros i Hi; lia.
  - destruct (Z.eqb_spec x 0) as [->|Hx]; simpl.
    + rewrite Nat.sub_diag. repeat split; try lia.
    + specialize (IH (S c0)).
      destruct (Np.zeros_in_row r (S c0) xs) as [|[r' c'] tl].
      * intros [|i] Hi; [assumption|]. apply IH. lia.
      * destruct IH as (-> & Hle & Hlt & Hz & Hmin).
        replace (c' - c0) with (S (c' - S c0)) by lia.
        repeat split; try lia; try assumption.
        intros [|i] Hi; [assumption|]. apply Hmin. lia.
Qed.

Lemma argwhere_zero_from_head (r0 : nat) (a : Np.ndarray2) :
  match Np.argwhere_zero_from r0 a with
  | [] => forall k i, k < length a -> i < length (nth k a []) ->
                      nth i (nth k a []) 0%Z <> 0%Z
  | (r', c') :: _ =>
      r0 <= r' /\ r' - r0 < length a /\
      c' < length (nth (r' - r0) a []) /\
      nth c' (nth (r' - r0) a []) 0%Z = 0%Z /\
      (forall i, i < c' -> nth i (nth (r' - r0) a []) 0%Z <> 0%Z) /\
      (forall k i, k < r' - r0 -> i < length (nth k a []) ->
                   nth i (nth k a []) 0%Z <> 0%Z)
  end.
Proof.
  revert r0; induction a as [|row rest IH]; intros r0; simpl.
  - intros k i Hk; lia.
  - pose proof (zeros_in_row_head r0 0 row) as Hrow.
    destruct (Np.zeros_in_row r0 0 row) as [|[r' c'] tl]; simpl.
    + specialize (IH (S r0)).
      destruct (Np.argwhere_zero_from (S r0) rest) as [|[r' c'] tl].
      * intros [|k] i Hk Hi; [now apply Hrow|]. apply IH; [lia|assumption].
      * destruct IH as (Hle & Hlt & Hc & Hz & Hmin & Hprev).
        replace (r' - r0) with (S (r' - S r0)) by lia.
        repeat split; try lia; try assumption.
        intros [|k] i Hk Hi; [now apply Hrow|]. apply Hprev; [lia|assumption].
    + destruct Hrow as (-> & _ & Hlt & Hz & Hmin).
      rewrite Nat.sub_diag. rewrite Nat.sub_0_r in Hlt, Hz, Hmin.
      repeat split; try lia; assumption.
Qed.

Lemma next_unassigned_cell_spec (b : board) :
  is_9x9 b -> board_is_full b = false ->
  exists r c, r < 9 /\ c < 9 /\
    next_unassigned_cell b = Ok (Z.of_nat r, Z.of_nat c) /\
    cell b r c = 0%Z /\
    forall r' c', r' < 9 -> c' < 9 -> cell b r' c' = 0%Z ->
                  r < r' \/ (r = r' /\ c <= c').
Proof.
  intros Hb Hfull. unfold next_unassigned_cell, Np.argwhere_zero.
  pose proof (argwhere_zero_from_head 0 b) as H.
  destruct (Np.argwhere_zero_from 0 b) as [|[r c] tl].
  - exfalso. apply not_true_iff_false in Hfull. apply Hfull.
    apply board_is_full_iff; [assumption|]. intros r c Hr Hc. apply H.
    + rewrite (proj1 Hb). assumption.
    + now rewrite (row_length_9x9 Hb Hr).
  - rewrite Nat.sub_0_r in H. destruct H as (_ & Hr & Hc & Hz & Hmin & Hprev).
    rewrite (proj1 Hb) in Hr. rewrite (row_length_9x9 Hb Hr) in Hc.
    exists r, c. repeat split; try assumption.
    intros r' c' Hr' Hc' Hz'. unfold cell in Hz'.
    destruct (Nat.lt_trichotomy r' r) as [Hlt|[->|Hgt]].
    + exfalso. apply (Hprev r' c'); try assumption.
      now rewrite (row_length_9x9 Hb Hr').
    + destruct (Nat.lt_ge_cases c' c) as [Hlt|Hge]; [|lia].
      exfalso. now apply (Hmin c').
    + lia.
Qed.

(** ** Counting empty cells *)

Lemma count_row_replace (row : list Z) (c : nat) (d : Z) :
  c < length row -> nth c row 0%Z = 0%Z -> d <> 0%Z ->
  S (length (filter (fun x => (x =? 0)%Z) (Np.replace_nth c row d))) =
  length (filter (fun x => (x =? 0)%Z) row).
Proof.
  revert c; induction row as [|x xs IH]; intros [|c] Hc Hz Hd; simpl in *;
    try lia.
  - subst x. apply Z.eqb_neq in Hd. rewrite Hd. reflexivity.
  - destruct (x =? 0)%Z; simpl; rewrite <- (IH c); auto; lia.
Qed.

Lemma list_sum_map_replace (A : Type) (f : A -> nat) (r : nat) (l : list A)
      (x d : A) :
  r < length l ->
  list_sum (map f (Np.replace_nth r l x)) + f (nth r l d) =
  list_sum (map f l) + f x.
Proof.
  revert r; induction l as [|h t IH]; intros [|r] Hr; simpl in *; try lia.
  specialize (IH r). lia.
Qed.

Lemma count_zeros_set_cell (b : board) (r c : nat) (d : Z) :
  is_9x9 b -> r < 9 -> c < 9 -> cell b r c = 0%Z -> d <> 0%Z ->
  S (count_zeros (Np.set_cell b r c d)) = count_zeros b.
Proof.
  intros Hb Hr Hc Hz Hd. unfold count_zeros, Np.set_cell.
  pose proof (@list_sum_map_replace _
                (fun row => length (filter (fun x => (x =? 0)%Z) row))
                r b (Np.replace_nth c (nth r b []) d) []) as H.
  rewrite (proj1 Hb) in H. specialize (H Hr). cbv beta in H.
  rewrite <- (count_row_replace (nth r b []) (c := c) (d := d)) in H;
    [lia| |assumption|assumption].
  now rewrite (row_length_9x9 Hb Hr).
Qed.

(** ** One iteration of the search loop *)

Lemma fst_emit (e : event) (x : outcome * list event) : fst (emit e x) = fst x.
Proof. reflexivity. Qed.

Lemma solve_loop_full (fuel : nat) (rest : list board) (b : board) :
  is_9x9 b -> board_is_full b = true ->
  solve_loop (S fuel) (rest ++ [b]) = (Returned b, [Shown b]).
Proof.
  intros Hb Hfull. cbn [solve_loop].
  rewrite pop_snoc, (show_board_9x9 Hb), Hfull. reflexivity.
Qed.

Lemma solve_loop_step (fuel : nat) (rest : list board) (b : board) (r c : nat) :
  is_9x9 b -> board_is_full b = false -> r < 9 -> c < 9 ->
  next_unassigned_cell b = Ok (Z.of_nat r, Z.of_nat c) ->
  solve_loop (S fuel) (rest ++ [b]) =
  emit (Shown b)
    (emit (Expanded b (Z.of_nat r) (Z.of_nat c))
       (solve_loop fuel (rest ++ map (Np.set_cell b r c) (legal_digits b r c)))).
Proof.
  intros Hb Hfull Hr Hc Hnext. cbn [solve_loop].
  rewrite pop_snoc, (show_board_9x9 Hb), Hfull, Hnext.
  rewrite (gen_possible_boards_eq Hb Hr Hc), append_all_app. reflexivity.
Qed.

Lemma solve_loop_empty (fuel : nat) :
  solve_loop (S fuel) [] = (ReturnedNone, []).
Proof. reflexivity. Qed.

Lemma solve_loop_more_fuel (fuel : nat) (s : list board) :
  fst (solve_loop fuel s) <> OutOfFuel ->
  forall k, solve_loop (fuel + k) s = solve_loop fuel s.
Proof.
  revert s; induction fuel as [|fuel IH]; intros s H k.
  - simpl in H. congruence.
  - cbn [solve_loop Nat.add] in *.
    destruct (pop s) as [[rest b]|]; [|reflexivity].
    destruct (show_board b); [|reflexivity].
    destruct (board_is_full b); [reflexivity|].
    destruct (next_unassigned_cell b) as [[row col]|]; [|reflexivity].
    destruct (gen_possible_boards b row col) as [next_boards|]; [|reflexivity].
    rewrite !fst_emit in H. now rewrite IH.
Qed.

(** ** Invariants of the stack *)

Section Invariant.

Variable P : board -> Prop.
Hypothesis P_shape : forall b, P b -> is_9x9 b.
Hypothesis P_child :
  forall b r c d, P b -> r < 9 -> c < 9 -> cell b r c = 0%Z ->
                  (1 <= d <= 9)%Z -> ~ blocked b r c d ->
                  P (Np.set_cell b r c d).

Lemma children_inv (b : board) (r c : nat) :
  P b -> r < 9 -> c < 9 -> cell b r c = 0%Z ->
  Forall P (map (Np.set_cell b r c) (legal_digits b r c)).
Proof.
  intros Hb Hr Hc Hz. apply Forall_forall. intros k Hk.
  apply in_map_iff in Hk. destruct Hk as [d [<- Hd]].
  apply in_legal_digits in Hd. destruct Hd as [Hd Hblk].
  apply P_child; try assumption.
  rewrite <- (blockedb_iff (P_shape Hb) d Hr Hc). congruence.
Qed.

Lemma solve_loop_inv (fuel : nat) (s : list board) :
  Forall P s ->
  match fst (solve_loop fuel s) with
  | Returned g => P g /\ board_is_full g = true
  | Raised _ => False
  | _ => True
  end.
Proof.
  revert s; induction fuel as [|fuel IH]; intros s Hs; [exact I|].
  destruct (pop s) as [[rest b]|] eqn:Hpop.
  - apply pop_some in Hpop. subst s.
    apply Forall_app in Hs. destruct Hs as [Hrest Hb].
    apply Forall_inv in Hb. pose proof (P_shape Hb) as Hshape.
    destruct (board_is_full b) eqn:Hfull.
    + rewrite (solve_loop_full _ _ Hshape Hfull). simpl. auto.
    + destruct (next_unassigned_cell_spec Hshape Hfull)
        as (r & c & Hr & Hc & Hnext & Hz & _).
      rewrite (solve_loop_step _ _ Hshape Hfull Hr Hc Hnext), !fst_emit.
      apply IH. apply Forall_app. split; [assumption|].
      now apply children_inv.
  - apply pop_none in Hpop. subst s. exact I.
Qed.

Lemma reachable_inv (init : board) (s : list board) :
  P init -> reachable init s -> Forall P s.
Proof.
  intros Hinit. induction 1 as [|s rest b row col kids Hreach IH Hpop _ Hfull Hnext Hgen].
  - constructor; [assumption|constructor].
  - apply pop_some in Hpop. subst s.
    apply Forall_app in IH. destruct IH as [Hrest Hb].
    apply Forall_inv in Hb. pose proof (P_shape Hb) as Hshape.
    destruct (next_unassigned_cell_spec Hshape Hfull)
      as (r & c & Hr & Hc & Hnext' & Hz & _).
    rewrite Hnext' in Hnext. injection Hnext as <- <-.
    rewrite (gen_possible_boards_eq Hshape Hr Hc) in Hgen.
    apply Ok_inj in Hgen. subst kids.
    rewrite append_all_app. apply Forall_app. split; [assumption|].
    now apply children_inv.
Qed.

End Invariant.

(** ** Termination *)

Lemma tree_size_pos (n : nat) : 1 <= tree_size n.
Proof. destruct n; simpl; lia. Qed.

Lemma stack_weight_app (s1 s2 : list board) :
  stack_weight (s1 ++ s2) = stack_weight s1 + stack_weight s2.
Proof. unfold stack_weight. now rewrite map_app, list_sum_app. Qed.

Lemma stack_weight_cons (b : board) (s : list board) :
  stack_weight (b :: s) = tree_size (count_zeros b) + stack_weight s.
Proof. reflexivity. Qed.

Lemma stack_weight_children (b : board) (r c : nat) (ds : list Z) :
  is_9x9 b -> r < 9 -> c < 9 -> cell b r c = 0%Z ->
  (forall d, In d ds -> d <> 0%Z) ->
  stack_weight (map (Np.set_cell b r c) ds) =
  length ds * tree_size (pred (count_zeros b)).
Proof.
  intros Hb Hr Hc Hz. induction ds as [|d ds IH]; intros Hds; [reflexivity|].
  cbn [map length]. rewrite stack_weight_cons.
  rewrite IH by (intros; apply Hds; now right).
  assert (Hd : d <> 0%Z) by (apply Hds; now left).
  pose proof (count_zeros_set_cell Hb Hr Hc Hz Hd) as Hcount.
  rewrite <- Hcount. reflexivity.
Qed.

Lemma stack_weight_decreases (rest : list board) (b : board) (r c : nat) :
  is_9x9 b -> r < 9 -> c < 9 -> cell b r c = 0%Z ->
  stack_weight (rest ++ map (Np.set_cell b r c) (legal_digits b r c)) <
  stack_weight (rest ++ [b]).
Proof.
  intros Hb Hr Hc Hz. rewrite !stack_weight_app.
  rewrite (stack_weight_children _ Hb Hr Hc Hz)
    by (intros d Hd; apply in_legal_digits in Hd; lia).
  assert (H1 : (1 <> 0)%Z) by lia.
  pose proof (count_zeros_set_cell Hb Hr Hc Hz H1) as Hcount.
  rewrite (stack_weight_cons b []). rewrite <- Hcount.
  cbn [pred tree_size]. change (stack_weight []) with 0.
  pose proof (length_legal_digits b r c) as Hlen.
  pose proof (Nat.mul_le_mono_r _ _
                (tree_size (count_zeros (Np.set_cell b r c 1))) Hlen).
  lia.
Qed.

Lemma solve_loop_terminates (fuel : nat) (s : list board) :
  Forall is_9x9 s -> stack_weight s < fuel ->
  fst (solve_loop fuel s) <> OutOfFuel.
Proof.
  revert s; induction fuel as [|fuel IH]; intros s Hs Hw; [lia|].
  destruct (pop s) as [[rest b]|] eqn:Hpop.
  - apply pop_some in Hpop. subst s.
    pose proof Hs as Hs'.
    apply Forall_app in Hs'. destruct Hs' as [Hrest Hb].
    apply Forall_inv in Hb.
    destruct (board_is_full b) eqn:Hfull.
    + rewrite (solve_loop_full _ _ Hb Hfull). discriminate.
    + destruct (next_unassigned_cell_spec Hb Hfull)
        as (r & c & Hr & Hc & Hnext & Hz & _).
      rewrite (solve_loop_step _ _ Hb Hfull Hr Hc Hnext), !fst_emit.
      pose proof (stack_weight_decreases rest Hb Hr Hc Hz).
      apply IH; [|lia].
      apply Forall_app. split; [assumption|].
      apply Forall_forall. intros k Hk. apply in_map_iff in Hk.
      destruct Hk as [d [<- _]]. now apply is_9x9_set_cell.
  - apply pop_none in Hpop. subst s. discriminate.
Qed.

(** ** Checking concrete boards *)

Lemma in_all_cells (r c : nat) : In (r, c) all_cells <-> r < 9 /\ c < 9.
Proof.
  unfold all_cells. rewrite in_flat_map. split.
  - intros [r' [Hr' H]]. apply in_map_iff in H. destruct H as [c' [E Hc']].
    injection E as <- <-. apply in_seq in Hr', Hc'. lia.
  - intros [Hr Hc]. exists r. split; [apply in_seq; lia|].
    apply in_map_iff. exists c. split; [reflexivity|apply in_seq; lia].
Qed.

Lemma same_unitb_iff (r1 c1 r2 c2 : nat) :
  r1 < 9 -> c1 < 9 -> r2 < 9 -> c2 < 9 ->
  same_unitb (r1, c1) (r2, c2) = true <-> same_unit r1 c1 r2 c2.
Proof.
  intros H1 H2 H3 H4. unfold same_unitb, same_unit. cbn [fst snd].
  rewrite (proj1 (which_box_view H1 H2)), (proj1 (which_box_view H3 H4)).
  rewrite !orb_true_iff, !Nat.eqb_eq, Z.eqb_eq.
  split; intros H; intuition congruence.
Qed.

Lemma validb_valid (b : board) : validb b = true -> valid b.
Proof.
  unfold validb. intros H r1 c1 r2 c2 H1 H2 H3 H4 Hne Hu Hnz E.
  rewrite forallb_forall in H.
  specialize (H (r1, c1) (proj2 (in_all_cells r1 c1) (conj H1 H2))).
  rewrite forallb_forall in H.
  specialize (H (r2, c2) (proj2 (in_all_cells r2 c2) (conj H3 H4))).
  cbn [fst snd] in H.
  apply (same_unitb_iff H1 H2 H3 H4) in Hu. rewrite Hu in H.
  apply Z.eqb_neq in Hnz. rewrite Hnz in H.
  apply Z.eqb_eq in E. rewrite E in H.
  cbn [negb orb] in H. rewrite !orb_false_r in H.
  apply andb_true_iff in H. destruct H as [Hr Hc].
  apply Nat.eqb_eq in Hr, Hc. congruence.
Qed.

Lemma is_9x9b_is_9x9 (b : board) : is_9x9b b = true -> is_9x9 b.
Proof.
  unfold is_9x9b, is_9x9. rewrite andb_true_iff, Nat.eqb_eq, forallb_forall.
  intros [Hl Hf]. split; [assumption|].
  apply Forall_forall. intros row Hrow. apply Nat.eqb_eq. now apply Hf.
Qed.

Lemma entries_0_9b_entries (b : board) :
  is_9x9 b -> entries_0_9b b = true -> entries_0_9 b.
Proof.
  intros Hb H r c Hr Hc. unfold entries_0_9b in H. unfold cell.
  rewrite forallb_forall in H.
  assert (Hrow : In (nth r b []) b) by (apply nth_In; rewrite (proj1 Hb); lia).
  specialize (H _ Hrow). rewrite forallb_forall in H.
  assert (Hx : In (nth c (nth r b []) 0%Z) (nth r b []))
    by (apply nth_In; rewrite (row_length_9x9 Hb Hr); lia).
  specialize (H _ Hx). apply andb_true_iff in H. lia.
Qed.

Lemma entries_set_cell (b : board) (r c : nat) (d : Z) :
  is_9x9 b -> entries_0_9 b -> r < 9 -> c < 9 -> (1 <= d <= 9)%Z ->
  entries_0_9 (Np.set_cell b r c d).
Proof.
  intros Hb He Hr Hc Hd r' c' Hr' Hc'.
  rewrite (cell_set_cell Hb) by assumption.
  destruct ((r' =? r) && (c' =? c)); [lia|now apply He].
Qed.

Lemma cell_eqb_eq (p q : nat * nat) : cell_eqb p q = true <-> p = q.
Proof.
  destruct p as [r c], q as [r' c']. unfold cell_eqb. cbn [fst snd].
  rewrite andb_true_iff, !Nat.eqb_eq. split; [intros [-> ->]|intros [= -> ->]]; auto.
Qed.

Lemma nodupb_NoDup (l : list (nat * nat)) : nodupb l = true -> NoDup l.
Proof.
  induction l as [|p t IH]; simpl; [constructor|].
  rewrite andb_true_iff, negb_true_iff. intros [Hp Ht].
  constructor; [|now apply IH].
  intros Hin. apply not_true_iff_false in Hp. apply Hp.
  apply existsb_exists. exists p. split; [assumption|now apply cell_eqb_eq].
Qed.

Lemma inclb_incl (l l' : list (nat * nat)) : inclb l l' = true -> incl l l'.
Proof.
  unfold inclb. rewrite forallb_forall. intros H p Hp.
  specialize (H p Hp). apply existsb_exists in H.
  destruct H as [q [Hq E]]. apply cell_eqb_eq in E. now subst.
Qed.

(** * The claims *)

(** ** The constraint checker *)

(** C3.  On a 9x9 grid with an empty cell [(r, c)], and for a digit [d] in
    1..9, [move_is_valid] returns false exactly when [d] already occurs
    somewhere in row [r], or somewhere in column [c], or somewhere in the
    3x3 box that contains [(r, c)]; it returns true otherwise. *)
Theorem move_is_valid_spec (b : board) (r c : nat) (d : Z) :
  is_9x9 b -> r < 9 -> c < 9 -> cell b r c = 0%Z -> (1 <= d <= 9)%Z ->
  (move_is_valid b d (Z.of_nat r) (Z.of_nat c) = Ok false <->
   in_row b r d \/ in_col b c d \/ in_box_of b r c d) /\
  (move_is_valid b d (Z.of_nat r) (Z.of_nat c) = Ok true <->
   ~ (in_row b r d \/ in_col b c d \/ in_box_of b r c d)).
Proof.
  intros Hb Hr Hc _ _. fold (blocked b r c d).
  rewrite (move_is_valid_eq Hb d Hr Hc), <- (blockedb_iff Hb d Hr Hc).
  destruct (blockedb b r c d); simpl; split; split;
    congruence || (intros H; exfalso; now apply H).
Qed.

Lemma move_is_valid_spec_witness :
  (move_is_valid sample_board 5 (Z.of_nat 0) (Z.of_nat 0) = Ok false <->
   in_row sample_board 0 5 \/ in_col sample_board 0 5 \/
   in_box_of sample_board 0 0 5) /\
  (move_is_valid sample_board 5 (Z.of_nat 0) (Z.of_nat 0) = Ok true <->
   ~ (in_row sample_board 0 5 \/ in_col sample_board 0 5 \/
      in_box_of sample_board 0 0 5)).
Proof.
  apply (@move_is_valid_spec sample_board 0 0 5).
  - apply is_9x9b_is_9x9. reflexivity.
  - lia.
  - lia.
  - reflexivity.
  - lia.
Defined.

(** ** The branch generator keeps the grid valid *)

(** C2.  If the non-zero entries of a 9x9 grid [g] satisfy row, column and
    box uniqueness and [(r, c)] is an empty cell of [g], then
    [gen_possible_boards g r c] returns grids that all satisfy it too; hence
    every grid on a stack that the search reaches from [g] satisfies it. *)
Theorem gen_possible_boards_keeps_valid (g : board) (r c : nat) :
  is_9x9 g -> valid g -> r < 9 -> c < 9 -> cell g r c = 0%Z ->
  (exists kids, gen_possible_boards g (Z.of_nat r) (Z.of_nat c) = Ok kids /\
                Forall valid kids) /\
  (forall s, reachable g s -> Forall valid s).
Proof.
  intros Hg Hv Hr Hc Hz.
  set (P := fun b : board => is_9x9 b /\ valid b).
  assert (P_shape : forall b, P b -> is_9x9 b) by (intros b H; exact (proj1 H)).
  assert (P_child : forall b r c d, P b -> r < 9 -> c < 9 -> cell b r c = 0%Z ->
                    (1 <= d <= 9)%Z -> ~ blocked b r c d ->
                    P (Np.set_cell b r c d)).
  { intros b r0 c0 d [Hb Hvb] Hr0 Hc0 _ _ Hd. split.
    - now apply is_9x9_set_cell.
    - now apply valid_set_cell. }
  assert (HP : P g) by (split; assumption).
  split.
  - exists (map (Np.set_cell g r c) (legal_digits g r c)). split.
    + now apply gen_possible_boards_eq.
    + eapply Forall_impl; [|apply (@children_inv P P_shape P_child g r c HP Hr Hc Hz)].
      intros k Hk. exact (proj2 Hk).
  - intros s Hs.
    eapply Forall_impl; [|apply (@reachable_inv P P_shape P_child g s HP Hs)].
    intros k Hk. exact (proj2 Hk).
Qed.

Lemma gen_possible_boards_keeps_valid_witness :
  (exists kids,
      gen_possible_boards sample_board (Z.of_nat 0) (Z.of_nat 0) = Ok kids /\
      Forall valid kids) /\
  (forall s, reachable sample_board s -> Forall valid s).
Proof.
  apply (@gen_possible_boards_keeps_valid sample_board 0 0).
  - apply is_9x9b_is_9x9. reflexivity.
  - apply validb_valid. vm_compute. reflexivity.
  - lia.
  - lia.
  - reflexivity.
Defined.

(** The stacks of [reachable] are the ones the loop works on: running the
    solver for some iterations leaves it in front of such a stack. *)
Lemma reachable_solve_loop (init : board) (s : list board) :
  reachable init s ->
  exists n evs, forall fuel,
    solve_backtracking (n + fuel) init =
    (fst (solve_loop fuel s), evs ++ snd (solve_loop fuel s)).
Proof.
  induction 1 as [|s rest b row col kids _ IH Hpop Hshow Hfull Hnext Hgen].
  - exists 0, []. intros fuel. unfold solve_backtracking. simpl.
    now destruct (solve_loop fuel [init]).
  - destruct IH as (n & evs & IH).
    exists (S n), (evs ++ [Shown b; Expanded b row col]). intros fuel.
    replace (S n + fuel) with (n + S fuel) by lia. rewrite IH.
    cbn [solve_loop]. rewrite Hpop, Hshow, Hfull, Hnext, Hgen.
    cbn [emit fst snd]. now rewrite <- app_assoc.
Qed.

(** ** Soundness of the search *)

(** C1.  For every initial 9x9 grid whose entries are in 0..9 and whose
    non-zero entries satisfy row, column and box uniqueness: if
    [solve_backtracking] returns a grid, that grid has no zero entry (its
    entries are in 1..9) and the digit of every cell occurs nowhere else in
    its row, in its column or in its 3x3 box. *)
Theorem solve_backtracking_sound (init : board) (fuel : nat) (g : board) :
  is_9x9 init -> entries_0_9 init -> valid init ->
  fst (solve_backtracking fuel init) = Returned g ->
  is_9x9 g /\
  forall r c, r < 9 -> c < 9 ->
    (1 <= cell g r c <= 9)%Z /\
    (forall c', c' < 9 -> c' <> c -> cell g r c' <> cell g r c) /\
    (forall r', r' < 9 -> r' <> r -> cell g r' c <> cell g r c) /\
    (forall r' c', r' < 9 -> c' < 9 -> (r', c') <> (r, c) ->
       which_box (Z.of_nat r') (Z.of_nat c') =
       which_box (Z.of_nat r) (Z.of_nat c) ->
       cell g r' c' <> cell g r c).
Proof.
  intros Hshape Hent Hvalid Hret.
  set (P := fun b : board => is_9x9 b /\ entries_0_9 b /\ valid b).
  assert (P_shape : forall b, P b -> is_9x9 b) by (intros b H; exact (proj1 H)).
  assert (P_child : forall b r c d, P b -> r < 9 -> c < 9 -> cell b r c = 0%Z ->
                    (1 <= d <= 9)%Z -> ~ blocked b r c d ->
                    P (Np.set_cell b r c d)).
  { intros b r0 c0 d (Hb & He & Hvb) Hr0 Hc0 _ Hd Hblk. split; [|split].
    - now apply is_9x9_set_cell.
    - now apply entries_set_cell.
    - now apply valid_set_cell. }
  assert (Hs : Forall P [init])
    by (constructor; [unfold P; auto|constructor]).
  pose proof (@solve_loop_inv P P_shape P_child fuel [init] Hs) as Hinv.
  unfold solve_backtracking in Hret. rewrite Hret in Hinv.
  destruct Hinv as [(Hg & Heg & Hvg) Hfull].
  apply (board_is_full_iff Hg) in Hfull.
  split; [assumption|]. intros r c Hr Hc.
  assert (Hnz : forall r' c', r' < 9 -> c' < 9 -> cell g r' c' <> 0%Z)
    by exact Hfull.
  split; [|split; [|split]].
  - pose proof (Heg r c Hr Hc). pose proof (Hnz r c Hr Hc). lia.
  - intros c' Hc' Hne. apply Hvg; auto; [congruence|now left].
  - intros r' Hr' Hne. apply Hvg; auto; [congruence|right; now left].
  - intros r' c' Hr' Hc' Hne Hbox. apply Hvg; auto. right; now right.
Qed.

Lemma solve_backtracking_sound_witness :
  is_9x9 sample_solution /\
  forall r c, r < 9 -> c < 9 ->
    (1 <= cell sample_solution r c <= 9)%Z /\
    (forall c', c' < 9 -> c' <> c ->
       cell sample_solution r c' <> cell sample_solution r c) /\
    (forall r', r' < 9 -> r' <> r ->
       cell sample_solution r' c <> cell sample_solution r c) /\
    (forall r' c', r' < 9 -> c' < 9 -> (r', c') <> (r, c) ->
       which_box (Z.of_nat r') (Z.of_nat c') =
       which_box (Z.of_nat r) (Z.of_nat c) ->
       cell sample_solution r' c' <> cell sample_solution r c).
Proof.
  apply (@solve_backtracking_sound sample_board 200 sample_solution).
  - apply is_9x9b_is_9x9. reflexivity.
  - apply entries_0_9b_entries; [apply is_9x9b_is_9x9|]; reflexivity.
  - apply validb_valid. vm_compute. reflexivity.
  - vm_compute. reflexivity.
Defined.

(** ** Termination *)

(** C5.  For every initial 9x9 grid with entries in 0..9 whose non-zero
    entries satisfy row, column and box uniqueness, [solve_backtracking]
    stops after finitely many loop iterations: from some number of
    iterations on, more fuel changes nothing and the run has ended with a
    grid or with [None].  The reason is that every child pushed onto the
    stack has strictly fewer empty cells than its parent. *)
Theorem solve_backtracking_terminates (init : board) :
  is_9x9 init -> entries_0_9 init -> valid init ->
  (forall b row col kids,
      is_9x9 b -> board_is_full b = false ->
      next_unassigned_cell b = Ok (row, col) ->
      gen_possible_boards b row col = Ok kids ->
      Forall (fun k => count_zeros k < count_zeros b) kids) /\
  exists n,
    n <= S (tree_size (count_zeros init)) /\
    (fst (solve_backtracking n init) = ReturnedNone \/
     exists g, fst (solve_backtracking n init) = Returned g) /\
    forall fuel, n <= fuel ->
      solve_backtracking fuel init = solve_backtracking n init.
Proof.
  intros Hshape _ _. split.
  - intros b row col kids Hb Hfull Hnext Hgen.
    destruct (next_unassigned_cell_spec Hb Hfull)
      as (r & c & Hr & Hc & Hnext' & Hz & _).
    rewrite Hnext' in Hnext. injection Hnext as <- <-.
    rewrite (gen_possible_boards_eq Hb Hr Hc) in Hgen.
    apply Ok_inj in Hgen. subst kids.
    apply Forall_forall. intros k Hk. apply in_map_iff in Hk.
    destruct Hk as [d [<- Hd]]. apply in_legal_digits in Hd.
    assert (Hnz : d <> 0%Z) by lia.
    pose proof (count_zeros_set_cell Hb Hr Hc Hz Hnz). lia.
  - set (n := S (tree_size (count_zeros init))). exists n.
    assert (Hs : Forall is_9x9 [init])
      by (constructor; [assumption|constructor]).
    assert (Hw : stack_weight [init] < n)
      by (rewrite stack_weight_cons; change (stack_weight []) with 0;
          unfold n; lia).
    pose proof (solve_loop_terminates Hs Hw) as Hterm.
    pose proof (@solve_loop_inv is_9x9 (fun b H => H)
                  (fun b r c d Hb Hr _ _ _ _ => is_9x9_set_cell Hb c d Hr)
                  n [init] Hs) as Hinv.
    unfold solve_backtracking. split; [lia|]. split.
    + destruct (fst (solve_loop n [init])); try contradiction; eauto.
    + intros fuel Hfuel. replace fuel with (n + (fuel - n)) by lia.
      now apply solve_loop_more_fuel.
Qed.

Lemma solve_backtracking_terminates_witness :
  exists n,
    n <= S (tree_size (count_zeros dead_end_board)) /\
    (fst (solve_backtracking n dead_end_board) = ReturnedNone \/
     exists g, fst (solve_backtracking n dead_end_board) = Returned g) /\
    forall fuel, n <= fuel ->
      solve_backtracking fuel dead_end_board = solve_backtracking n dead_end_board.
Proof.
  apply (@solve_backtracking_terminates dead_end_board).
  - apply is_9x9b_is_9x9. reflexivity.
  - apply entries_0_9b_entries; [apply is_9x9b_is_9x9|]; reflexivity.
  - apply validb_valid. vm_compute. reflexivity.
Defined.

(** ** A grid that is already full *)

(** C9.  For every initial 9x9 grid that is already full and valid,
    [solve_backtracking] returns that same grid after a single pop: the
    whole run consists of showing the grid once, and
    [gen_possible_boards] is never called. *)
Theorem solve_backtracking_full_board (b : board) (fuel : nat) :
  is_9x9 b -> valid b -> full b ->
  solve_backtracking (S fuel) b = (Returned b, [Shown b]).
Proof.
  intros Hb _ Hfull. apply (board_is_full_iff Hb) in Hfull.
  exact (solve_loop_full fuel [] Hb Hfull).
Qed.

Lemma solve_backtracking_full_board_witness :
  solve_backtracking 1 sample_solution =
  (Returned sample_solution, [Shown sample_solution]).
Proof.
  apply (@solve_backtracking_full_board sample_solution 0).
  - apply is_9x9b_is_9x9. reflexivity.
  - apply validb_valid. vm_compute. reflexivity.
  - apply board_is_full_iff; [apply is_9x9b_is_9x9|]; reflexivity.
Defined.

(** ** Exhaustion *)

Lemma filter_all_false (A : Type) (f : A -> bool) (l : list A) :
  (forall x, In x l -> f x = false) -> filter f l = [].
Proof.
  induction l as [|x t IH]; intros H; simpl; [reflexivity|].
  rewrite (H x) by now left. apply IH. intros y Hy. apply H. now right.
Qed.

(** C7.  On a 9x9 grid the search never raises an exception: a run ends
    with a grid or with the ordinary value [None], and [None] is what the
    loop returns once the stack is empty.  In particular, when no digit is
    legal for the selected empty cell, [gen_possible_boards] returns the
    empty list, nothing is pushed, and if the stack is then empty the
    solver returns [None]. *)
Theorem solve_backtracking_exhausted (b : board) :
  is_9x9 b ->
  (forall fuel e, fst (solve_backtracking fuel b) <> Raised e) /\
  (exists n, forall fuel, n <= fuel ->
     fst (solve_backtracking fuel b) = ReturnedNone \/
     exists g, fst (solve_backtracking fuel b) = Returned g) /\
  (forall fuel, solve_loop (S fuel) [] = (ReturnedNone, [])) /\
  (forall row col,
     board_is_full b = false ->
     next_unassigned_cell b = Ok (row, col) ->
     (forall d, (1 <= d <= 9)%Z -> move_is_valid b d row col = Ok false) ->
     gen_possible_boards b row col = Ok [] /\
     forall fuel,
       solve_backtracking (S (S fuel)) b =
       (ReturnedNone, [Shown b; Expanded b row col])).
Proof.
  intros Hb.
  assert (Hs : Forall is_9x9 [b]) by (constructor; [assumption|constructor]).
  assert (Hinv : forall fuel,
             match fst (solve_loop fuel [b]) with
             | Returned g => is_9x9 g /\ board_is_full g = true
             | Raised _ => False
             | _ => True
             end).
  { intros fuel.
    exact (@solve_loop_inv is_9x9 (fun b H => H)
             (fun b r c d Hb Hr _ _ _ _ => is_9x9_set_cell Hb c d Hr)
             fuel [b] Hs). }
  split; [|split; [|split]].
  - intros fuel e E. specialize (Hinv fuel).
    unfold solve_backtracking in E. now rewrite E in Hinv.
  - exists (S (tree_size (count_zeros b))). intros fuel Hfuel.
    assert (Hw : stack_weight [b] < fuel)
      by (rewrite stack_weight_cons; change (stack_weight []) with 0; lia).
    pose proof (solve_loop_terminates Hs Hw) as Hterm.
    specialize (Hinv fuel). unfold solve_backtracking.
    destruct (fst (solve_loop fuel [b])); try contradiction; eauto.
  - intros fuel. reflexivity.
  - intros row col Hfull Hnext Hdead.
    destruct (next_unassigned_cell_spec Hb Hfull)
      as (r & c & Hr & Hc & Hnext' & Hz & _).
    rewrite Hnext' in Hnext. injection Hnext as <- <-.
    assert (Hnone : legal_digits b r c = []).
    { apply filter_all_false. intros d Hd. rewrite range_1_10 in Hd.
      assert (Hrange : (1 <= d <= 9)%Z) by (simpl in Hd; intuition lia).
      specialize (Hdead d Hrange).
      rewrite (move_is_valid_eq Hb d Hr Hc) in Hdead. congruence. }
    split.
    + now rewrite (gen_possible_boards_eq Hb Hr Hc), Hnone.
    + intros fuel. unfold solve_backtracking.
      pose proof (solve_loop_step (S fuel) [] Hb Hfull Hr Hc Hnext') as Hstep.
      cbn [app] in Hstep. rewrite Hstep, Hnone. reflexivity.
Qed.

Lemma solve_backtracking_exhausted_witness :
  gen_possible_boards dead_end_board 0 0 = Ok [] /\
  solve_backtracking 2 dead_end_board =
  (ReturnedNone, [Shown dead_end_board; Expanded dead_end_board 0 0]).
Proof.
  assert (Hb : is_9x9 dead_end_board) by (apply is_9x9b_is_9x9; reflexivity).
  destruct (@solve_backtracking_exhausted dead_end_board Hb)
    as (_ & _ & _ & Hdead).
  destruct (Hdead 0%Z 0%Z) as [Hgen Hrun].
  - reflexivity.
  - reflexivity.
  - intros d Hd.
    assert (Hcases : d = 1%Z \/ d = 2%Z \/ d = 3%Z \/ d = 4%Z \/ d = 5%Z \/
                     d = 6%Z \/ d = 7%Z \/ d = 8%Z \/ d = 9%Z) by lia.
    repeat (destruct Hcases as [->|Hcases]; [reflexivity|]).
    subst d. reflexivity.
  - split; [exact Hgen|exact (Hrun 0)].
Defined.

(** ** Order of exploration *)

Lemma sorted_snoc_max (l : list Z) (x : Z) :
  StronglySorted Z.lt (l ++ [x]) -> forall y, In y (l ++ [x]) -> (y <= x)%Z.
Proof.
  induction l as [|a l IH]; simpl; intros Hs y Hy.
  - destruct Hy as [<-|[]]. lia.
  - apply StronglySorted_inv in Hs. destruct Hs as [Hs Ha].
    destruct Hy as [<-|Hy]; [|now apply IH].
    rewrite Forall_forall in Ha. specialize (Ha x).
    assert (In x (l ++ [x])) by (apply in_or_app; right; now left).
    specialize (Ha H). lia.
Qed.

(** C4.  The search explores states in a fixed order.  On a 9x9 grid that
    is not full, [next_unassigned_cell] returns the first empty cell in
    row-major order; [gen_possible_boards] returns one child per legal
    digit, in ascending order of the digits 1..9; and one iteration of
    [solve_backtracking] pops the grid and pushes these children in that
    order, so that the next pop takes the child of the highest legal
    digit. *)
Theorem search_order (b : board) (rest : list board) :
  is_9x9 b -> board_is_full b = false ->
  exists r c,
    r < 9 /\ c < 9 /\
    next_unassigned_cell b = Ok (Z.of_nat r, Z.of_nat c) /\
    cell b r c = 0%Z /\
    (forall r' c', r' < 9 -> c' < 9 -> cell b r' c' = 0%Z ->
                   r < r' \/ (r = r' /\ c <= c')) /\
    exists ds,
      StronglySorted Z.lt ds /\
      (forall d, In d ds <->
                 (1 <= d <= 9)%Z /\
                 move_is_valid b d (Z.of_nat r) (Z.of_nat c) = Ok true) /\
      gen_possible_boards b (Z.of_nat r) (Z.of_nat c) =
        Ok (map (Np.set_cell b r c) ds) /\
      (forall fuel,
          solve_loop (S fuel) (rest ++ [b]) =
          emit (Shown b)
            (emit (Expanded b (Z.of_nat r) (Z.of_nat c))
               (solve_loop fuel (rest ++ map (Np.set_cell b r c) ds)))) /\
      (forall ds' dmax, ds = ds' ++ [dmax] ->
          pop (rest ++ map (Np.set_cell b r c) ds) =
            Some (rest ++ map (Np.set_cell b r c) ds', Np.set_cell b r c dmax) /\
          forall d, In d ds -> (d <= dmax)%Z).
Proof.
  intros Hb Hfull.
  destruct (next_unassigned_cell_spec Hb Hfull)
    as (r & c & Hr & Hc & Hnext & Hz & Hfirst).
  exists r, c. repeat (split; [assumption|]).
  exists (legal_digits b r c).
  split; [apply legal_digits_sorted|]. split; [|split; [|split]].
  - intros d. rewrite in_legal_digits, (move_is_valid_eq Hb d Hr Hc).
    destruct (blockedb b r c d); simpl; intuition congruence.
  - now apply gen_possible_boards_eq.
  - intros fuel. now apply solve_loop_step.
  - intros ds' dmax E. split.
    + rewrite E, map_app, app_assoc. apply pop_snoc.
    + pose proof (legal_digits_sorted b r c) as Hsorted. rewrite E in *.
      now apply sorted_snoc_max.
Qed.

Lemma search_order_witness :
  exists r c,
    r < 9 /\ c < 9 /\
    next_unassigned_cell sample_board = Ok (Z.of_nat r, Z.of_nat c) /\
    cell sample_board r c = 0%Z /\
    (forall r' c', r' < 9 -> c' < 9 -> cell sample_board r' c' = 0%Z ->
                   r < r' \/ (r = r' /\ c <= c')) /\
    exists ds,
      StronglySorted Z.lt ds /\
      (forall d, In d ds <->
                 (1 <= d <= 9)%Z /\
                 move_is_valid sample_board d (Z.of_nat r) (Z.of_nat c) = Ok true) /\
      gen_possible_boards sample_board (Z.of_nat r) (Z.of_nat c) =
        Ok (map (Np.set_cell sample_board r c) ds) /\
      (forall fuel,
          solve_loop (S fuel) ([] ++ [sample_board]) =
          emit (Shown sample_board)
            (emit (Expanded sample_board (Z.of_nat r) (Z.of_nat c))
               (solve_loop fuel ([] ++ map (Np.set_cell sample_board r c) ds)))) /\
      (forall ds' dmax, ds = ds' ++ [dmax] ->
          pop ([] ++ map (Np.set_cell sample_board r c) ds) =
            Some ([] ++ map (Np.set_cell sample_board r c) ds',
                  Np.set_cell sample_board r c dmax) /\
          forall d, In d ds -> (d <= dmax)%Z).
Proof.
  apply (@search_order sample_board []).
  - apply is_9x9b_is_9x9. reflexivity.
  - reflexivity.
Defined.

(** ** Box geometry *)

Lemma firstn_skipn_map_nth (A : Type) (d : A) (l : list A) (k n : nat) :
  k + n <= length l ->
  firstn n (skipn k l) = map (fun i => nth i l d) (seq k n).
Proof.
  revert k n; induction l as [|a l IH]; intros k n H; simpl in H.
  - assert (k = 0) by lia. assert (n = 0) by lia. subst. reflexivity.
  - destruct k as [|k].
    + destruct n as [|n]; [reflexivity|]. cbn [skipn firstn seq map nth].
      f_equal. rewrite <- seq_shift, map_map.
      rewrite <- (IH 0 n) by lia. reflexivity.
    + cbn [skipn]. rewrite <- seq_shift, map_map. apply IH. lia.
Qed.

Lemma in_slice_cells (s : Np.slice2) (r c : nat) :
  In (r, c) (slice_cells s) <->
  (Np.row_start s <= r < Np.row_start s + (Np.row_stop s - Np.row_start s)) /\
  (Np.col_start s <= c < Np.col_start s + (Np.col_stop s - Np.col_start s)).
Proof.
  unfold slice_cells. rewrite in_flat_map. split.
  - intros [r' [Hr' H]]. apply in_map_iff in H. destruct H as [c' [E Hc']].
    injection E as <- <-. apply in_seq in Hr', Hc'. split; assumption.
  - intros [Hr Hc]. exists r. split; [now apply in_seq|].
    apply in_map_iff. exists c. split; [reflexivity|now apply in_seq].
Qed.

(** The slice taken by [get_box] reads exactly the cells listed by
    [slice_cells], in the same order. *)
Lemma getslice_cells (b : board) (s : Np.slice2) :
  is_9x9 b ->
  Np.row_start s <= Np.row_stop s <= 9 ->
  Np.col_start s <= Np.col_stop s <= 9 ->
  concat (Np.getslice b s) =
  map (fun p => cell b (fst p) (snd p)) (slice_cells s).
Proof.
  intros Hb Hrows Hcols. unfold Np.getslice, slice_cells.
  rewrite (firstn_skipn_map_nth []) by (rewrite (proj1 Hb); lia).
  rewrite map_map, flat_map_concat_map, concat_map, map_map. f_equal.
  apply map_ext_in. intros r Hr. apply in_seq in Hr.
  assert (Hr9 : r < 9) by lia.
  rewrite (firstn_skipn_map_nth 0%Z) by (rewrite (row_length_9x9 Hb Hr9); lia).
  rewrite map_map. reflexivity.
Qed.

(** The member cells of one box: the slice bounds against the formula for
    [which_box]. *)
Ltac box_members Hbox :=
  eapply Hbox; [reflexivity|reflexivity|reflexivity|];
  let r := fresh "r" in
  let c := fresh "c" in
  let Hr9 := fresh "Hr9" in
  let Hc9 := fresh "Hc9" in
  let E := fresh "E" in
  intros r c; rewrite in_slice_cells;
  cbn [Np.row_start Np.row_stop Np.col_start Np.col_stop];
  split;
  [intros [? ?]; assert (Hr9 : r < 9) by lia; assert (Hc9 : c < 9) by lia;
   rewrite (proj1 (which_box_view Hr9 Hc9));
   repeat split; try assumption; f_equal; div3 r; div3 c; lia
  |intros (Hr9 & Hc9 & E);
   rewrite (proj1 (which_box_view Hr9 Hc9)) in E; apply Ok_inj in E;
   div3 r; div3 c; lia].

Lemma which_box_range_counterexample :
  which_box (Z.of_nat 8) (Z.of_nat 8) = Ok 9%Z /\
  ~ (forall r c, r < 9 -> c < 9 ->
       exists k, which_box (Z.of_nat r) (Z.of_nat c) = Ok k /\ (0 <= k <= 8)%Z).
Proof.
  split; [reflexivity|]. intros H.
  destruct (H 8 8) as [k [E Hk]]; try lia.
  vm_compute in E. apply Ok_inj in E. lia.
Qed.

(** C6, amended.  [which_box] is total on rows 0..8 and columns 0..8 and
    returns a box number in the range 1..9.  For every box number the
    member cells given by [box_num_to_view] are exactly 9 distinct
    (row, col) pairs, namely the cells that [which_box] sends to that
    number, and the cells of the nine boxes taken together are the 81 cells
    of the grid, each exactly once. *)
Theorem box_partition :
  (forall r c, r < 9 -> c < 9 ->
     exists k, which_box (Z.of_nat r) (Z.of_nat c) = Ok k /\ (1 <= k <= 9)%Z) /\
  (forall k, (1 <= k <= 9)%Z ->
     exists cs, cells_of_box k = Ok cs /\ length cs = 9 /\ NoDup cs /\
       forall r c, In (r, c) cs <->
                   r < 9 /\ c < 9 /\ which_box (Z.of_nat r) (Z.of_nat c) = Ok k) /\
  length all_cells = 81 /\ NoDup all_cells /\
  Permutation (flat_map slice_cells (map snd box_num_to_view)) all_cells.
Proof.
  split; [|split; [|split; [|split]]].
  - intros r c Hr Hc. eexists. split; [apply (which_box_view Hr Hc)|].
    div3 r. div3 c. lia.
  - intros k Hk.
    assert (Hcases : k = 1%Z \/ k = 2%Z \/ k = 3%Z \/ k = 4%Z \/ k = 5%Z \/
                     k = 6%Z \/ k = 7%Z \/ k = 8%Z \/ k = 9%Z) by lia.
    assert (Hbox : forall v, dict_get box_num_to_view k = Ok v ->
              length (slice_cells v) = 9 -> nodupb (slice_cells v) = true ->
              (forall r c, In (r, c) (slice_cells v) <->
                 r < 9 /\ c < 9 /\
                 which_box (Z.of_nat r) (Z.of_nat c) = Ok k) ->
              exists cs, cells_of_box k = Ok cs /\ length cs = 9 /\ NoDup cs /\
                forall r c, In (r, c) cs <->
                  r < 9 /\ c < 9 /\
                  which_box (Z.of_nat r) (Z.of_nat c) = Ok k).
    { intros v Hv Hlen Hnd Hin. exists (slice_cells v).
      unfold cells_of_box. rewrite Hv. cbn [bind].
      repeat split; try assumption; try apply (Hin r c); auto using nodupb_NoDup. }
    repeat (destruct Hcases as [->|Hcases]; [box_members Hbox|]).
    subst k. box_members Hbox.
  - reflexivity.
  - apply nodupb_NoDup. vm_compute. reflexivity.
  - apply NoDup_Permutation.
    + apply nodupb_NoDup. vm_compute. reflexivity.
    + apply nodupb_NoDup. vm_compute. reflexivity.
    + intros p. split; apply inclb_incl; vm_compute; reflexivity.
Qed.

(** ** The branch generator over the store *)

Lemma replace_nth_snoc (A : Type) (l : list A) (x y : A) :
  Np.replace_nth (length l) (l ++ [x]) y = l ++ [y].
Proof.
  induction l as [|a l IH]; simpl; [reflexivity|]. now rewrite IH.
Qed.

Lemma seq_add_map (a n : nat) : seq a n = map (fun i => a + i) (seq 0 n).
Proof.
  revert a; induction n as [|n IH]; intros a; simpl; [reflexivity|].
  f_equal; [lia|]. rewrite (IH (S a)), <- seq_shift, map_map.
  apply map_ext. intros i. lia.
Qed.

Lemma deref_app_old (h ext : Store.store) (q : Store.addr) :
  q < length h -> Store.deref (h ++ ext) q = Store.deref h q.
Proof. intros Hq. unfold Store.deref. now apply app_nth1. Qed.

Lemma deref_app_new (h ext : Store.store) (i : nat) :
  Store.deref (h ++ ext) (length h + i) = nth i ext [].
Proof.
  unfold Store.deref. rewrite app_nth2 by lia. f_equal. lia.
Qed.

(** The loop leaves the arrays already in the store as they are and
    appends one new array per kept digit, in order. *)
Lemma store_gen_loop_eq (g : board) (p : Store.addr) (r c : nat)
      (nums : list Z) (h : Store.store) (acc : list Store.addr) :
  is_9x9 g -> r < 9 -> c < 9 ->
  p < length h -> Store.deref h p = g ->
  let ds := filter (fun d => negb (blockedb g r c d)) nums in
  Store.gen_loop h p (Z.of_nat r) (Z.of_nat c) nums acc =
  Ok (h ++ map (Np.set_cell g r c) ds, acc ++ seq (length h) (length ds)).
Proof.
  intros Hg Hr Hc. revert h acc.
  induction nums as [|d nums IH]; intros h acc Hp Hd; cbn zeta.
  - simpl. now rewrite !app_nil_r.
  - cbn [Store.gen_loop filter]. rewrite Hd.
    rewrite (move_is_valid_eq Hg d Hr Hc). cbn [bind].
    destruct (negb (blockedb g r c d)).
    + unfold Store.np_copy, Store.setitem. rewrite Hd.
      replace (Store.deref (h ++ [g]) (length h)) with g
        by (unfold Store.deref; now rewrite nth_middle).
      rewrite (setitem_9x9 Hg d Hr Hc). cbn [bind].
      rewrite replace_nth_snoc.
      rewrite IH.
      * rewrite length_app. cbn [length map seq].
        rewrite <- !app_assoc. cbn [app].
        replace (length h + 1) with (S (length h)) by lia. reflexivity.
      * rewrite length_app. simpl. lia.
      * now rewrite deref_app_old.
    + now apply IH.
Qed.

(** C8.  For a 9x9 grid [g] stored at address [p], an empty cell [(r, c)]
    and every legal digit [d], the child that [gen_possible_boards]
    produces for [d] equals [d] at [(r, c)] and equals [g] at every other
    cell; the call leaves [g], and every other array that existed before
    it, unmodified, and each child is an array of its own at a fresh
    address. *)
Theorem gen_possible_boards_frame (h : Store.store) (p : Store.addr)
        (r c : nat) :
  p < length h -> is_9x9 (Store.deref h p) -> r < 9 -> c < 9 ->
  cell (Store.deref h p) r c = 0%Z ->
  exists h' kids,
    Store.gen_possible_boards h p (Z.of_nat r) (Z.of_nat c) = Ok (h', kids) /\
    (forall q, q < length h -> Store.deref h' q = Store.deref h q) /\
    NoDup kids /\
    (forall k, In k kids -> length h <= k < length h') /\
    gen_possible_boards (Store.deref h p) (Z.of_nat r) (Z.of_nat c) =
      Ok (map (Store.deref h') kids) /\
    (forall d, (1 <= d <= 9)%Z ->
       move_is_valid (Store.deref h p) d (Z.of_nat r) (Z.of_nat c) = Ok true ->
       exists k, In k kids /\
         cell (Store.deref h' k) r c = d /\
         forall r' c', r' < 9 -> c' < 9 -> (r', c') <> (r, c) ->
           cell (Store.deref h' k) r' c' = cell (Store.deref h p) r' c').
Proof.
  intros Hp Hg Hr Hc _.
  set (g := Store.deref h p) in *.
  set (ds := legal_digits g r c).
  set (ext := map (Np.set_cell g r c) ds).
  assert (Hlen : length ext = length ds) by (unfold ext; apply length_map).
  exists (h ++ ext), (seq (length h) (length ds)).
  assert (Hkids : map (Store.deref (h ++ ext)) (seq (length h) (length ds)) = ext).
  { rewrite <- Hlen, seq_add_map, map_map.
    rewrite (map_ext _ (fun i => nth i ext []))
      by (intros i; apply deref_app_new).
    pose proof (@firstn_skipn_map_nth _ [] ext 0 (length ext) (le_n _)) as E.
    cbn [skipn] in E. rewrite firstn_all in E. symmetry. exact E. }
  split; [|split; [|split; [|split; [|split]]]].
  - unfold Store.gen_possible_boards.
    rewrite (@store_gen_loop_eq g p r c (Np.range 1 10) h [] Hg Hr Hc Hp eq_refl).
    reflexivity.
  - intros q Hq. now apply deref_app_old.
  - apply seq_NoDup.
  - intros k Hk. apply in_seq in Hk. rewrite length_app. unfold ext.
    rewrite length_map. lia.
  - rewrite Hkids. now apply gen_possible_boards_eq.
  - intros d Hd Hlegal.
    rewrite (move_is_valid_eq Hg d Hr Hc) in Hlegal.
    assert (Hin : In d ds)
      by (apply in_legal_digits; split; [assumption|];
          apply Ok_inj in Hlegal; now apply negb_true_iff).
    apply (In_nth _ _ 0%Z) in Hin. destruct Hin as [i [Hi Hnth]].
    exists (length h + i). split; [apply in_seq; lia|].
    rewrite deref_app_new. unfold ext.
    rewrite (nth_indep _ [] (Np.set_cell g r c 0%Z)) by (now rewrite length_map).
    rewrite (map_nth (Np.set_cell g r c)), Hnth.
    split.
    + rewrite (cell_set_cell Hg) by assumption. now rewrite !Nat.eqb_refl.
    + intros r' c' Hr' Hc' Hne. rewrite (cell_set_cell Hg) by assumption.
      destruct (Nat.eqb_spec r' r) as [->|]; [|reflexivity].
      destruct (Nat.eqb_spec c' c) as [->|]; [congruence|reflexivity].
Qed.

Lemma gen_possible_boards_frame_witness :
  exists h' kids,
    Store.gen_possible_boards [sample_board] 0 (Z.of_nat 0) (Z.of_nat 0) =
      Ok (h', kids) /\
    (forall q, q < length [sample_board] ->
               Store.deref h' q = Store.deref [sample_board] q) /\
    NoDup kids /\
    (forall k, In k kids -> length [sample_board] <= k < length h') /\
    gen_possible_boards (Store.deref [sample_board] 0) (Z.of_nat 0) (Z.of_nat 0) =
      Ok (map (Store.deref h') kids) /\
    (forall d, (1 <= d <= 9)%Z ->
       move_is_valid (Store.deref [sample_board] 0) d (Z.of_nat 0) (Z.of_nat 0) =
         Ok true ->
       exists k, In k kids /\
         cell (Store.deref h' k) 0 0 = d /\
         forall r' c', r' < 9 -> c' < 9 -> (r', c') <> (0, 0) ->
           cell (Store.deref h' k) r' c' =
           cell (Store.deref [sample_board] 0) r' c').
Proof.
  apply (@gen_possible_boards_frame [sample_board] 0 0 0).
  - simpl. lia.
  - apply is_9x9b_is_9x9. reflexivity.
  - lia.
  - lia.
  - reflexivity.
Defined.

(** ** The loader *)

(** C10.  [parse_from_string] should succeed on every string of at least
    81 characters and store 0 for every character other than ['1'] to
    ['9'].  It does not: on the 81-character line that starts with the
    superscript two, [isdigit] accepts the first character, [int] then
    rejects it, and the call raises [ValueError]. *)
Theorem parse_from_string_superscript :
  String.length superscript_line = 81 /\
  isdigit (ascii_of_nat 178) = true /\
  parse_from_string superscript_line = Raise ValueError.
Proof. repeat split; vm_compute; reflexivity. Qed.

(** On lines whose [isdigit] characters are all decimal digits the loader
    succeeds, and stores the first 81 characters row by row. *)

Lemma string_get_some (s : string) (i : nat) :
  i < String.length s -> exists ch, String.get i s = Some ch.
Proof.
  revert i; induction s as [|a s IH]; intros i Hi; simpl in Hi; [lia|].
  destruct i as [|i]; simpl; [eauto|]. apply IH. lia.
Qed.

Lemma parse_char_decimal (ch : ascii) :
  (isdigit ch = true -> is_decimal ch = true) ->
  (if isdigit ch then int_of_char ch else Ok 0%Z) = Ok (digit_value ch) /\
  (0 <= digit_value ch <= 9)%Z.
Proof.
  destruct ch as [[] [] [] [] [] [] [] []]; vm_compute; intros H;
    (split; [reflexivity || (discriminate (H eq_refl))|split; discriminate]).
Qed.

Lemma parse_loop_spec (s : string) (n k : nat) (flat : list Z) :
  k + n <= String.length s -> k + n <= length flat ->
  (forall i ch, k <= i < k + n -> String.get i s = Some ch ->
                isdigit ch = true -> is_decimal ch = true) ->
  exists flat',
    parse_loop s (seq k n) flat = Ok flat' /\
    length flat' = length flat /\
    forall i, i < length flat ->
      (k <= i < k + n ->
       exists ch, String.get i s = Some ch /\ nth i flat' 0%Z = digit_value ch) /\
      (~ k <= i < k + n -> nth i flat' 0%Z = nth i flat 0%Z).
Proof.
  revert k flat; induction n as [|n IH]; intros k flat Hs Hf Hchars.
  - exists flat. simpl. repeat split; lia.
  - destruct (@string_get_some s k ltac:(lia)) as [ch Hch].
    assert (Hk : k <= k < k + S n) by lia.
    destruct (@parse_char_decimal ch (Hchars k ch Hk Hch)) as [Hval _].
    destruct (IH (S k) (Np.replace_nth k flat (digit_value ch)))
      as (flat' & Hrun & Hlen & Hnth).
    + lia.
    + rewrite length_replace_nth. lia.
    + intros i ch' Hi. apply Hchars. lia.
    + exists flat'. cbn [seq parse_loop]. unfold str_getitem. rewrite Hch.
      cbn [bind]. rewrite Hval. cbn [bind].
      rewrite length_replace_nth in Hlen, Hnth.
      split; [assumption|]. split; [assumption|].
      intros i Hi. destruct (Hnth i Hi) as [Hin Hout]. split.
      * intros Hrange. destruct (Nat.eq_dec i k) as [->|Hne].
        -- exists ch. split; [assumption|].
           rewrite Hout by lia. apply nth_replace_nth_eq. lia.
        -- apply Hin. lia.
      * intros Hrange. rewrite Hout by lia.
        apply nth_replace_nth_neq. lia.
Qed.

Lemma nth_reshape (rows cols r : nat) (v : list Z) :
  r < rows ->
  nth r (Np.reshape rows cols v) [] = firstn cols (skipn (r * cols) v).
Proof.
  revert r v; induction rows as [|rows IH]; intros r v Hr; [lia|].
  destruct r as [|r]; simpl; [reflexivity|].
  rewrite IH by lia. now rewrite skipn_skipn, Nat.add_comm.
Qed.

Lemma reshape_9x9 (v : list Z) :
  length v = 81 ->
  is_9x9 (Np.reshape 9 9 v) /\
  forall r c, r < 9 -> c < 9 ->
    cell (Np.reshape 9 9 v) r c = nth (9 * r + c) v 0%Z.
Proof.
  intros Hv. split.
  - apply is_9x9b_is_9x9.
    do 82 (destruct v as [|? v]; try discriminate). reflexivity.
  - intros r c Hr Hc. unfold cell. rewrite nth_reshape by assumption.
    rewrite nth_firstn, nth_skipn.
    replace (c <? 9) with true by (symmetry; apply Nat.ltb_lt; lia).
    f_equal. lia.
Qed.

Lemma parse_from_string_loads (s : string) :
  81 <= String.length s ->
  (forall i ch, i < 81 -> String.get i s = Some ch ->
                isdigit ch = true -> is_decimal ch = true) ->
  exists b,
    parse_from_string s = Ok b /\ is_9x9 b /\ entries_0_9 b /\
    forall r c, r < 9 -> c < 9 ->
      exists ch, String.get (9 * r + c) s = Some ch /\
                 cell b r c = digit_value ch.
Proof.
  intros Hlen Hchars.
  destruct (@parse_loop_spec s 81 0 (repeat 0%Z 81))
    as (flat & Hrun & Hflat & Hnth).
  - simpl. lia.
  - rewrite repeat_length. lia.
  - intros i ch Hi. apply Hchars. lia.
  - rewrite repeat_length in Hflat, Hnth.
    destruct (reshape_9x9 flat Hflat) as [Hshape Hcell].
    assert (Hat : forall r c, r < 9 -> c < 9 ->
              exists ch, String.get (9 * r + c) s = Some ch /\
                         cell (Np.reshape 9 9 flat) r c = digit_value ch).
    { intros r c Hr Hc. rewrite (Hcell r c Hr Hc).
      apply (Hnth (9 * r + c)); lia. }
    exists (Np.reshape 9 9 flat). unfold parse_from_string.
    rewrite repeat_length, Hrun. cbn [bind].
    split; [reflexivity|]. split; [assumption|]. split; [|assumption].
    intros r c Hr Hc. destruct (Hat r c Hr Hc) as (ch & Hch & ->).
    apply parse_char_decimal. apply (Hchars (9 * r + c)); [lia|assumption].
Qed.

Example parse_sample_line :
  parse_from_string
    "..51.36...976.5.838.....12....397..2..8...9..7..568....71.....448.2.156...29.47.."
  = Ok sample_board.
Proof. vm_compute. reflexivity. Qed.

Example parse_zero_character :
  parse_from_string
    "005103600097605083800000120000397002008000900700568000071000004480201560002904700"
  = Ok sample_board.
Proof. vm_compute. reflexivity. Qed.

(** * Further properties of the search *)

(** ** Completeness *)

Lemma blocked_same_unit (b : board) (r c : nat) (d : Z) :
  r < 9 -> c < 9 -> blocked b r c d ->
  exists r' c', r' < 9 /\ c' < 9 /\ same_unit r c r' c' /\ cell b r' c' = d.
Proof.
  intros Hr Hc [[c' [Hc' E]]|[[r' [Hr' E]]|[r' [c' (Hr' & Hc' & Hbox & E)]]]].
  - exists r, c'. repeat split; try assumption. now left.
  - exists r', c. repeat split; try assumption. right; now left.
  - exists r', c'. repeat split; try assumption. right; right. now symmetry.
Qed.

Lemma solution_digit (g : board) (r c : nat) :
  solution g -> r < 9 -> c < 9 -> (1 <= cell g r c <= 9)%Z.
Proof.
  intros (_ & He & Hf & _) Hr Hc.
  pose proof (He r c Hr Hc). pose proof (Hf r c Hr Hc). lia.
Qed.

(** The digit a solution has at an empty cell is one the generator keeps. *)
Lemma legal_of_solution (b g : board) (r c : nat) :
  is_9x9 b -> solution g -> extends b g -> r < 9 -> c < 9 ->
  cell b r c = 0%Z -> In (cell g r c) (legal_digits b r c).
Proof.
  intros Hb Hg Hext Hr Hc Hz. apply in_legal_digits.
  pose proof (solution_digit Hg Hr Hc) as Hd. split; [assumption|].
  destruct (blockedb b r c (cell g r c)) eqn:E; [exfalso|reflexivity].
  apply (blockedb_iff Hb _ Hr Hc) in E.
  destruct (blocked_same_unit Hr Hc E) as (r' & c' & Hr' & Hc' & Hu & Hcell).
  assert (Hnz : cell b r' c' <> 0%Z) by lia.
  pose proof (Hext r' c' Hr' Hc' Hnz) as Hg'.
  destruct Hg as (_ & _ & _ & Hvalid).
  apply (Hvalid r' c' r c); try assumption.
  - intros [= -> ->]. congruence.
  - now apply same_unit_sym.
  - congruence.
  - congruence.
Qed.

Lemma extends_set_cell (b g : board) (r c : nat) :
  is_9x9 b -> extends b g -> r < 9 -> c < 9 ->
  extends (Np.set_cell b r c (cell g r c)) g.
Proof.
  intros Hb Hext Hr Hc r' c' Hr' Hc'.
  rewrite (cell_set_cell Hb) by assumption.
  destruct (Nat.eqb_spec r' r) as [->|]; [|now apply Hext].
  destruct (Nat.eqb_spec c' c) as [->|]; [reflexivity|now apply Hext].
Qed.

(** Givens are kept by every child, whatever digit is written. *)
Lemma extends_child (init b : board) (r c : nat) (d : Z) :
  is_9x9 b -> extends init b -> r < 9 -> c < 9 -> cell b r c = 0%Z ->
  extends init (Np.set_cell b r c d).
Proof.
  intros Hb Hext Hr Hc Hz r' c' Hr' Hc' Hnz.
  rewrite (cell_set_cell Hb) by assumption.
  destruct (Nat.eqb_spec r' r) as [->|]; [|now apply Hext].
  destruct (Nat.eqb_spec c' c) as [->|]; [|now apply Hext].
  simpl. pose proof (Hext r c Hr Hc Hnz). congruence.
Qed.

Lemma extends_refl (b : board) : extends b b.
Proof. intros r c _ _ _. reflexivity. Qed.

(** A grid that a solution extends is itself valid, with entries 0..9. *)
Lemma extends_valid (b g : board) : solution g -> extends b g -> valid b.
Proof.
  intros (_ & _ & Hf & Hv) Hext r1 c1 r2 c2 H1 H2 H3 H4 Hne Hu Hnz E.
  assert (Hnz2 : cell b r2 c2 <> 0%Z) by congruence.
  apply (Hv r1 c1 r2 c2); try assumption.
  - now apply Hf.
  - rewrite (Hext r1 c1), (Hext r2 c2); assumption.
Qed.

Lemma extends_entries (b g : board) :
  solution g -> extends b g -> entries_0_9 b.
Proof.
  intros Hg Hext r c Hr Hc.
  destruct (Z.eq_dec (cell b r c) 0) as [->|Hnz]; [lia|].
  rewrite <- (Hext r c Hr Hc Hnz). pose proof (solution_digit Hg Hr Hc). lia.
Qed.

Lemma solve_loop_complete (g : board) (fuel : nat) (s : list board) :
  solution g -> Forall is_9x9 s -> stack_weight s < fuel ->
  Exists (fun b => extends b g) s ->
  exists g', fst (solve_loop fuel s) = Returned g'.
Proof.
  intros Hg. revert s; induction fuel as [|fuel IH]; intros s Hs Hw Hex; [lia|].
  destruct (pop s) as [[rest b]|] eqn:Hpop.
  - apply pop_some in Hpop. subst s.
    pose proof Hs as Hs'. apply Forall_app in Hs'. destruct Hs' as [Hrest Hb].
    apply Forall_inv in Hb.
    destruct (board_is_full b) eqn:Hfull.
    + rewrite (solve_loop_full _ _ Hb Hfull). simpl. eauto.
    + destruct (next_unassigned_cell_spec Hb Hfull)
        as (r & c & Hr & Hc & Hnext & Hz & _).
      rewrite (solve_loop_step _ _ Hb Hfull Hr Hc Hnext), !fst_emit.
      pose proof (stack_weight_decreases rest Hb Hr Hc Hz).
      apply IH; [| lia |].
      * apply Forall_app. split; [assumption|].
        apply Forall_forall. intros k Hk. apply in_map_iff in Hk.
        destruct Hk as [d [<- _]]. now apply is_9x9_set_cell.
      * apply Exists_app. apply Exists_app in Hex. destruct Hex as [Hex|Hex].
        -- now left.
        -- right. apply Exists_cons in Hex.
           destruct Hex as [Hext|Hex]; [|inversion Hex].
           apply Exists_exists. exists (Np.set_cell b r c (cell g r c)). split.
           ++ apply in_map. now apply legal_of_solution.
           ++ now apply extends_set_cell.
  - apply pop_none in Hpop. subst s. inversion Hex.
Qed.

Lemma extendsb_extends (b g : board) : extendsb b g = true -> extends b g.
Proof.
  unfold extendsb. rewrite forallb_forall. intros H r c Hr Hc Hnz.
  specialize (H (r, c) (proj2 (in_all_cells r c) (conj Hr Hc))).
  cbn [fst snd] in H. apply orb_true_iff in H. destruct H as [H|H].
  - apply Z.eqb_eq in H. contradiction.
  - now apply Z.eqb_eq in H.
Qed.

Lemma sample_solution_solution : solution sample_solution.
Proof.
  assert (Hs : is_9x9 sample_solution) by (apply is_9x9b_is_9x9; reflexivity).
  split; [assumption|]. split; [|split].
  - now apply entries_0_9b_entries.
  - now apply board_is_full_iff.
  - apply validb_valid. vm_compute. reflexivity.
Qed.

(** X1.  The search is complete: if some solved grid keeps the digits of a
    9x9 initial grid, [solve_backtracking] returns a grid, after at most
    [tree_size (count_zeros init) + 1] iterations, and the grid it returns
    is a solved grid that keeps those digits. *)
Theorem solve_backtracking_complete (init g : board) :
  is_9x9 init -> solution g -> extends init g ->
  exists n g',
    n <= S (tree_size (count_zeros init)) /\
    (forall fuel, n <= fuel -> fst (solve_backtracking fuel init) = Returned g') /\
    solution g' /\ extends init g'.
Proof.
  intros Hinit Hg Hext.
  set (n := S (tree_size (count_zeros init))).
  assert (Hs : Forall is_9x9 [init]) by (constructor; [assumption|constructor]).
  assert (Hw : stack_weight [init] < n)
    by (rewrite stack_weight_cons; change (stack_weight []) with 0;
        unfold n; lia).
  assert (Hex : Exists (fun b => extends b g) [init]) by now constructor.
  destruct (solve_loop_complete Hg Hs Hw Hex) as [g' Hret].
  exists n, g'. split; [lia|]. split.
  - intros fuel Hfuel. unfold solve_backtracking.
    replace fuel with (n + (fuel - n)) by lia.
    rewrite solve_loop_more_fuel; [assumption|]. rewrite Hret. discriminate.
  - set (P := fun b : board =>
                is_9x9 b /\ entries_0_9 b /\ valid b /\ extends init b).
    assert (P_shape : forall b, P b -> is_9x9 b) by (intros b H; exact (proj1 H)).
    assert (P_child : forall b r c d, P b -> r < 9 -> c < 9 ->
                      cell b r c = 0%Z -> (1 <= d <= 9)%Z ->
                      ~ blocked b r c d -> P (Np.set_cell b r c d)).
    { intros b r c d (Hb & He & Hv & Hx) Hr Hc Hz Hd Hblk.
      split; [|split; [|split]].
      - now apply is_9x9_set_cell.
      - now apply entries_set_cell.
      - now apply valid_set_cell.
      - now apply extends_child. }
    assert (HP : Forall P [init]).
    { constructor; [|constructor]. split; [assumption|]. split; [|split].
      - exact (extends_entries Hg Hext).
      - exact (extends_valid Hg Hext).
      - apply extends_refl. }
    pose proof (@solve_loop_inv P P_shape P_child n [init] HP) as Hinv.
    rewrite Hret in Hinv. destruct Hinv as [(Hg' & He' & Hv' & Hx') Hfull].
    split; [|assumption]. split; [assumption|]. split; [assumption|].
    split; [|assumption]. now apply board_is_full_iff.
Qed.

Lemma solve_backtracking_complete_witness :
  exists n g',
    n <= S (tree_size (count_zeros sample_board)) /\
    (forall fuel, n <= fuel ->
       fst (solve_backtracking fuel sample_board) = Returned g') /\
    solution g' /\ extends sample_board g'.
Proof.
  apply (@solve_backtracking_complete sample_board sample_solution).
  - apply is_9x9b_is_9x9. reflexivity.
  - exact sample_solution_solution.
  - apply extendsb_extends. vm_compute. reflexivity.
Defined.

(** X2.  The grid [solve_backtracking] returns for a 9x9 initial grid keeps
    every digit of the initial grid in its place, whether or not the
    initial grid is valid. *)
Theorem solve_backtracking_keeps_givens (init : board) (fuel : nat) (g : board) :
  is_9x9 init -> fst (solve_backtracking fuel init) = Returned g ->
  forall r c, r < 9 -> c < 9 -> cell init r c <> 0%Z ->
              cell g r c = cell init r c.
Proof.
  intros Hinit Hret.
  set (P := fun b : board => is_9x9 b /\ extends init b).
  assert (P_shape : forall b, P b -> is_9x9 b) by (intros b H; exact (proj1 H)).
  assert (P_child : forall b r c d, P b -> r < 9 -> c < 9 ->
                    cell b r c = 0%Z -> (1 <= d <= 9)%Z ->
                    ~ blocked b r c d -> P (Np.set_cell b r c d)).
  { intros b r c d (Hb & Hx) Hr Hc Hz _ _. split.
    - now apply is_9x9_set_cell.
    - now apply extends_child. }
  assert (HP : Forall P [init]).
  { constructor; [|constructor]. split; [assumption|apply extends_refl]. }
  pose proof (@solve_loop_inv P P_shape P_child fuel [init] HP) as Hinv.
  unfold solve_backtracking in Hret. rewrite Hret in Hinv.
  exact (proj2 (proj1 Hinv)).
Qed.

Lemma solve_backtracking_keeps_givens_witness :
  fst (solve_backtracking 200 sample_board) = Returned sample_solution /\
  cell sample_solution 0 2 = cell sample_board 0 2.
Proof.
  assert (Hret : fst (solve_backtracking 200 sample_board) =
                 Returned sample_solution) by (vm_compute; reflexivity).
  split; [exact Hret|].
  apply (@solve_backtracking_keeps_givens sample_board 200 sample_solution).
  - apply is_9x9b_is_9x9. reflexivity.
  - exact Hret.
  - lia.
  - lia.
  - vm_compute. discriminate.
Defined.

(** X3.  [None] can be trusted: when [solve_backtracking] returns [None] for
    a 9x9 initial grid, no solved grid keeps the digits of that grid. *)
Theorem solve_backtracking_none_unsolvable (init : board) (fuel : nat) :
  is_9x9 init -> fst (solve_backtracking fuel init) = ReturnedNone ->
  forall g, solution g -> ~ extends init g.
Proof.
  intros Hinit Hnone g Hg Hext.
  set (k := S (tree_size (count_zeros init))).
  assert (Hs : Forall is_9x9 [init]) by (constructor; [assumption|constructor]).
  assert (Hw : stack_weight [init] < fuel + k)
    by (rewrite stack_weight_cons; change (stack_weight []) with 0;
        unfold k; lia).
  assert (Hex : Exists (fun b => extends b g) [init]) by now constructor.
  destruct (solve_loop_complete Hg Hs Hw Hex) as [g' Hret].
  unfold solve_backtracking in Hnone.
  rewrite solve_loop_more_fuel in Hret by (rewrite Hnone; discriminate).
  congruence.
Qed.

Lemma solve_backtracking_none_unsolvable_witness :
  fst (solve_backtracking 2 dead_end_board) = ReturnedNone /\
  forall g, solution g -> ~ extends dead_end_board g.
Proof.
  assert (Hnone : fst (solve_backtracking 2 dead_end_board) = ReturnedNone)
    by (vm_compute; reflexivity).
  split; [exact Hnone|].
  apply (@solve_backtracking_none_unsolvable dead_end_board 2).
  - apply is_9x9b_is_9x9. reflexivity.
  - exact Hnone.
Defined.

(** ** Which solution is returned *)

Section SortedFacts.

Context {A B : Type}.
Variable R : A -> A -> Prop.




End SortedFacts.







(** ** Size of the stack *)






(** * Further properties of the helpers *)

(** ** The next unassigned cell *)

Lemma zeros_in_row_nil_iff (r c : nat) (row : list Z) :
  Np.zeros_in_row r c row = [] <->
  forallb (fun x => negb (x =? 0)%Z) row = true.
Proof.
  revert c; induction row as [|x xs IH]; intros c; simpl; [tauto|].
  destruct (x =? 0)%Z; simpl.
  - split; discriminate.
  - apply IH.
Qed.

Lemma argwhere_zero_from_nil_iff (r : nat) (a : Np.ndarray2) :
  Np.argwhere_zero_from r a = [] <-> Np.all a = true.
Proof.
  revert r; induction a as [|row rest IH]; intros r; simpl; [tauto|].
  rewrite andb_true_iff, <- (IH (S r)), <- (zeros_in_row_nil_iff r 0 row).
  split.
  - intros H. now apply app_eq_nil in H.
  - intros [-> ->]. reflexivity.
Qed.

(** X6.  [next_unassigned_cell] raises [IndexError] exactly on the boards
    that [board_is_full] accepts, whatever their shape; this is why the
    solver tests fullness first. *)
Theorem next_unassigned_cell_raises_iff_full (b : board) :
  next_unassigned_cell b = Raise IndexError <-> board_is_full b = true.
Proof.
  unfold next_unassigned_cell, board_is_full, Np.argwhere_zero.
  rewrite <- (argwhere_zero_from_nil_iff 0 b).
  destruct (Np.argwhere_zero_from 0 b) as [|[r c] tl].
  - tauto.
  - split; discriminate.
Qed.

(** X7.  On a 9x9 board that is not full, the cell that
    [next_unassigned_cell] returns lies inside the board and
    [cell_is_empty] confirms that it is empty. *)
Theorem next_unassigned_cell_is_empty (b : board) :
  is_9x9 b -> board_is_full b = false ->
  exists row col,
    next_unassigned_cell b = Ok (row, col) /\
    (0 <= row < 9)%Z /\ (0 <= col < 9)%Z /\
    cell_is_empty b row col = Ok true.
Proof.
  intros Hb Hfull.
  destruct (next_unassigned_cell_spec Hb Hfull)
    as (r & c & Hr & Hc & Hnext & Hz & _).
  exists (Z.of_nat r), (Z.of_nat c).
  split; [assumption|]. split; [lia|]. split; [lia|].
  unfold cell_is_empty. rewrite (getitem_cell Hb Hr Hc). cbn [bind].
  rewrite Hz. reflexivity.
Qed.

Lemma next_unassigned_cell_is_empty_witness :
  exists row col,
    next_unassigned_cell sample_board = Ok (row, col) /\
    (0 <= row < 9)%Z /\ (0 <= col < 9)%Z /\
    cell_is_empty sample_board row col = Ok true.
Proof.
  apply (@next_unassigned_cell_is_empty sample_board).
  - apply is_9x9b_is_9x9. reflexivity.
  - reflexivity.
Defined.

(** ** Indexing *)

Lemma norm_index_wrap (n : nat) (i : Z) :
  (- Z.of_nat n <= i < Z.of_nat n)%Z ->
  Np.norm_index n i = Ok (Z.to_nat (i mod Z.of_nat n)).
Proof.
  intros Hi. unfold Np.norm_index.
  destruct (Z.leb_spec 0 i) as [Hpos|Hneg]; simpl.
  - replace (i <? Z.of_nat n)%Z with true by (symmetry; apply Z.ltb_lt; lia).
    now rewrite Z.mod_small by lia.
  - replace (- Z.of_nat n <=? i)%Z with true by (symmetry; apply Z.leb_le; lia).
    replace (i <? 0)%Z with true by (symmetry; apply Z.ltb_lt; lia).
    simpl. f_equal. f_equal.
    rewrite <- (Z_mod_plus_full i 1 (Z.of_nat n)).
    rewrite Z.mod_small by lia. lia.
Qed.

Lemma norm_index_out (n : nat) (i : Z) :
  ~ (- Z.of_nat n <= i < Z.of_nat n)%Z ->
  Np.norm_index n i = Raise IndexError.
Proof.
  intros Hi. unfold Np.norm_index.
  destruct (Z.leb_spec 0 i); destruct (Z.ltb_spec i (Z.of_nat n));
    destruct (Z.leb_spec (- Z.of_nat n) i); destruct (Z.ltb_spec i 0);
    simpl; try reflexivity; lia.
Qed.

Lemma getitem_index (a : Np.ndarray2) (row col : Z) :
  is_9x9 a ->
  ((-9 <= row < 9)%Z -> (-9 <= col < 9)%Z ->
   Np.getitem a row col =
   Ok (cell a (Z.to_nat (row mod 9)) (Z.to_nat (col mod 9)))) /\
  (~ ((-9 <= row < 9)%Z /\ (-9 <= col < 9)%Z) ->
   Np.getitem a row col = Raise IndexError).
Proof.
  intros Ha. unfold Np.getitem. rewrite (nrows_9x9 Ha), (ncols_9x9 Ha). split.
  - intros Hr Hc. rewrite !norm_index_wrap by (simpl; lia). reflexivity.
  - intros Hout.
    destruct (Z_le_dec (-9) row) as [H1|H1];
      [destruct (Z_lt_dec row 9) as [H2|H2]|].
    + rewrite (@norm_index_wrap 9 row) by (simpl; lia). cbn [bind].
      rewrite norm_index_out by (simpl; lia). reflexivity.
    + rewrite norm_index_out by (simpl; lia). reflexivity.
    + rewrite norm_index_out by (simpl; lia). reflexivity.
Qed.

Lemma boxes_9x9 : is_9x9 boxes.
Proof. apply is_9x9b_is_9x9. reflexivity. Qed.

(** X8.  Rows and columns are indexed the numpy way.  On a 9x9 board
    [cell_is_empty] and [which_box] accept the indices -9..8, an index
    -9..-1 denoting the same row or column as that index plus 9, and raise
    [IndexError] as soon as one index is outside -9..8. *)
Theorem negative_indices_wrap (b : board) (row col : Z) :
  is_9x9 b ->
  ((-9 <= row < 9)%Z -> (-9 <= col < 9)%Z ->
   cell_is_empty b row col =
     Ok (cell b (Z.to_nat (row mod 9)) (Z.to_nat (col mod 9)) =? 0)%Z /\
   which_box row col = which_box (row mod 9) (col mod 9) /\
   exists k, which_box row col = Ok k /\ (1 <= k <= 9)%Z) /\
  (~ ((-9 <= row < 9)%Z /\ (-9 <= col < 9)%Z) ->
   cell_is_empty b row col = Raise IndexError /\
   which_box row col = Raise IndexError).
Proof.
  intros Hb. split.
  - intros Hr Hc.
    pose proof (Z.mod_pos_bound row 9 ltac:(lia)) as Hr9.
    pose proof (Z.mod_pos_bound col 9 ltac:(lia)) as Hc9.
    split; [|split].
    + unfold cell_is_empty.
      now rewrite (proj1 (getitem_index row col Hb) Hr Hc).
    + unfold which_box.
      rewrite (proj1 (getitem_index row col boxes_9x9) Hr Hc).
      rewrite (proj1 (getitem_index (row mod 9) (col mod 9) boxes_9x9))
        by lia.
      now rewrite !Z.mod_mod by lia.
    + unfold which_box.
      rewrite (proj1 (getitem_index row col boxes_9x9) Hr Hc).
      eexists. split; [reflexivity|].
      assert (Hr' : Z.to_nat (row mod 9) < 9) by lia.
      assert (Hc' : Z.to_nat (col mod 9) < 9) by lia.
      pose proof (proj1 (which_box_view Hr' Hc')) as Hw.
      unfold which_box in Hw. rewrite (getitem_cell boxes_9x9 Hr' Hc') in Hw.
      apply Ok_inj in Hw. rewrite Hw.
      div3 (Z.to_nat (row mod 9)). div3 (Z.to_nat (col mod 9)). lia.
  - intros Hout. split.
    + unfold cell_is_empty.
      now rewrite (proj2 (getitem_index row col Hb) Hout).
    + unfold which_box.
      now rewrite (proj2 (getitem_index row col boxes_9x9) Hout).
Qed.

Lemma negative_indices_wrap_witness :
  cell_is_empty sample_board (-1) (-2) =
    Ok (cell sample_board (Z.to_nat (-1 mod 9)) (Z.to_nat (-2 mod 9)) =? 0)%Z /\
  which_box (-1) (-2) = which_box (-1 mod 9) (-2 mod 9) /\
  exists k, which_box (-1) (-2) = Ok k /\ (1 <= k <= 9)%Z.
Proof.
  apply (@negative_indices_wrap sample_board (-1) (-2)).
  - apply is_9x9b_is_9x9. reflexivity.
  - lia.
  - lia.
Defined.

(** ** The checker at the edges *)

(** X9.  [move_is_valid] on a 9x9 board raises [IndexError] for a row
    outside -9..8.  For a valid row and a column outside -9..8 the outcome
    depends on the row test, which comes first: if the digit stands in the
    row the answer is [False] and the column is never looked at, otherwise
    [IndexError] is raised. *)
Theorem move_is_valid_out_of_range (b : board) (d : Z) (r : nat) (row col : Z) :
  is_9x9 b -> r < 9 ->
  (~ (-9 <= row < 9)%Z -> move_is_valid b d row col = Raise IndexError) /\
  (~ (-9 <= col < 9)%Z ->
   (in_row b r d -> move_is_valid b d (Z.of_nat r) col = Ok false) /\
   (~ in_row b r d -> move_is_valid b d (Z.of_nat r) col = Raise IndexError)).
Proof.
  intros Hb Hr. split.
  - intros Hout. unfold move_is_valid, Np.getrow.
    rewrite (nrows_9x9 Hb), norm_index_out by (simpl; lia). reflexivity.
  - intros Hout. unfold move_is_valid.
    rewrite (getrow_9x9 Hb Hr). cbn [bind]. fold (in_rowb b r d).
    rewrite <- (in_rowb_iff Hb d Hr).
    destruct (in_rowb b r d).
    + split; [reflexivity|]. intros H. now contradiction H.
    + split; [discriminate|]. intros _. unfold Np.getcol.
      rewrite (ncols_9x9 Hb), norm_index_out by (simpl; lia). reflexivity.
Qed.

Lemma move_is_valid_out_of_range_witness :
  (~ (-9 <= 9 < 9)%Z -> move_is_valid sample_board 5 9 42 = Raise IndexError) /\
  (~ (-9 <= 42 < 9)%Z ->
   (in_row sample_board 0 5 ->
    move_is_valid sample_board 5 (Z.of_nat 0) 42 = Ok false) /\
   (~ in_row sample_board 0 5 ->
    move_is_valid sample_board 5 (Z.of_nat 0) 42 = Raise IndexError)).
Proof.
  apply (@move_is_valid_out_of_range sample_board 5 0 9 42).
  - apply is_9x9b_is_9x9. reflexivity.
  - lia.
Defined.

(** X10.  [move_is_valid] does not check that the digit is a digit: on a
    9x9 board with entries in 0..9 every number outside 0..9 is reported
    as a valid move for every cell. *)
Theorem move_is_valid_unchecked_digit (b : board) (r c : nat) (d : Z) :
  is_9x9 b -> entries_0_9 b -> r < 9 -> c < 9 -> ~ (0 <= d <= 9)%Z ->
  move_is_valid b d (Z.of_nat r) (Z.of_nat c) = Ok true.
Proof.
  intros Hb He Hr Hc Hd. rewrite (move_is_valid_eq Hb d Hr Hc).
  destruct (blockedb b r c d) eqn:E; [exfalso|reflexivity].
  apply (blockedb_iff Hb d Hr Hc) in E.
  destruct (blocked_same_unit Hr Hc E) as (r' & c' & Hr' & Hc' & _ & Hcell).
  pose proof (He r' c' Hr' Hc'). lia.
Qed.

Lemma move_is_valid_unchecked_digit_witness :
  move_is_valid sample_board 10 (Z.of_nat 0) (Z.of_nat 0) = Ok true.
Proof.
  apply (@move_is_valid_unchecked_digit sample_board 0 0 10).
  - apply is_9x9b_is_9x9. reflexivity.
  - apply entries_0_9b_entries; [apply is_9x9b_is_9x9|]; reflexivity.
  - lia.
  - lia.
  - lia.
Defined.

(** ** Boxes *)

Lemma getslice_3x3 (b : board) (r0 c0 : nat) :
  is_9x9 b -> r0 + 3 <= 9 -> c0 + 3 <= 9 ->
  let bx := Np.getslice b (Np.S_ r0 (r0 + 3) c0 (c0 + 3)) in
  length bx = 3 /\ Forall (fun row => length row = 3) bx.
Proof.
  intros Hb Hr0 Hc0. unfold Np.getslice.
  cbn [Np.row_start Np.row_stop Np.col_start Np.col_stop].
  replace (r0 + 3 - r0) with 3 by lia. replace (c0 + 3 - c0) with 3 by lia.
  split.
  - rewrite length_map, length_firstn, length_skipn, (proj1 Hb). lia.
  - apply Forall_map, Forall_forall. intros row Hrow.
    assert (Hin : In row b).
    { apply (In_firstn_skipn _ []) in Hrow; [|rewrite (proj1 Hb); lia].
      destruct Hrow as [i [Hi <-]]. apply nth_In. rewrite (proj1 Hb). lia. }
    pose proof (proj2 Hb) as Hrows. rewrite Forall_forall in Hrows.
    rewrite length_firstn, length_skipn, (Hrows row Hin). lia.
Qed.

(** X11.  [get_box] knows the box numbers 1..9 only.  For such a number and
    a 9x9 board it returns a 3x3 array that holds, row by row, the entries
    of the member cells of that box; for any other number it raises
    [KeyError]. *)
Theorem get_box_spec (b : board) (k : Z) :
  is_9x9 b ->
  ((1 <= k <= 9)%Z ->
   exists bx cs,
     get_box b k = Ok bx /\ cells_of_box k = Ok cs /\
     length bx = 3 /\ Forall (fun row => length row = 3) bx /\
     concat bx = map (fun p => cell b (fst p) (snd p)) cs) /\
  (~ (1 <= k <= 9)%Z -> get_box b k = Raise KeyError).
Proof.
  intros Hb. split.
  - intros Hk.
    assert (Hcases : k = 1%Z \/ k = 2%Z \/ k = 3%Z \/ k = 4%Z \/ k = 5%Z \/
                     k = 6%Z \/ k = 7%Z \/ k = 8%Z \/ k = 9%Z) by lia.
    assert (Hbox : forall r0 c0,
              r0 + 3 <= 9 -> c0 + 3 <= 9 ->
              dict_get box_num_to_view k =
                Ok (Np.S_ r0 (r0 + 3) c0 (c0 + 3)) ->
              exists bx cs,
                get_box b k = Ok bx /\ cells_of_box k = Ok cs /\
                length bx = 3 /\ Forall (fun row => length row = 3) bx /\
                concat bx = map (fun p => cell b (fst p) (snd p)) cs).
    { intros r0 c0 Hr0 Hc0 Hv.
      exists (Np.getslice b (Np.S_ r0 (r0 + 3) c0 (c0 + 3))),
             (slice_cells (Np.S_ r0 (r0 + 3) c0 (c0 + 3))).
      unfold get_box, cells_of_box. rewrite Hv. cbn [bind].
      destruct (@getslice_3x3 b r0 c0 Hb Hr0 Hc0) as [Hlen Hrows].
      repeat (split; [reflexivity || assumption|]).
      apply getslice_cells; [assumption| |]; simpl; lia. }
    destruct Hcases as [->|[->|[->|[->|[->|[->|[->|[->| ->]]]]]]]].
    + apply (Hbox 0 0); [lia|lia|reflexivity].
    + apply (Hbox 0 3); [lia|lia|reflexivity].
    + apply (Hbox 0 6); [lia|lia|reflexivity].
    + apply (Hbox 3 0); [lia|lia|reflexivity].
    + apply (Hbox 3 3); [lia|lia|reflexivity].
    + apply (Hbox 3 6); [lia|lia|reflexivity].
    + apply (Hbox 6 0); [lia|lia|reflexivity].
    + apply (Hbox 6 3); [lia|lia|reflexivity].
    + apply (Hbox 6 6); [lia|lia|reflexivity].
  - intros Hk. unfold get_box, box_num_to_view, dict_get.
    repeat match goal with
           | |- context [(k =? ?x)%Z] => destruct (Z.eqb_spec k x); [lia|]
           end.
    reflexivity.
Qed.

Lemma get_box_spec_witness :
  exists bx cs,
    get_box sample_board 5 = Ok bx /\ cells_of_box 5 = Ok cs /\
    length bx = 3 /\ Forall (fun row => length row = 3) bx /\
    concat bx = map (fun p => cell sample_board (fst p) (snd p)) cs.
Proof.
  apply (@get_box_spec sample_board 5).
  - apply is_9x9b_is_9x9. reflexivity.
  - lia.
Defined.

(** ** The children of a grid *)

Lemma sorted_NoDup (l : list Z) : StronglySorted Z.lt l -> NoDup l.
Proof.
  induction 1 as [|a l Hs IH Ha]; constructor; [|assumption].
  intros Hin. rewrite Forall_forall in Ha. specialize (Ha a Hin). lia.
Qed.

Lemma NoDup_map_on (A B : Type) (f : A -> B) (l : list A) :
  NoDup l -> (forall x y, In x l -> In y l -> f x = f y -> x = y) ->
  NoDup (map f l).
Proof.
  induction 1 as [|a l Hnin Hnd IH]; intros Hinj; simpl; constructor.
  - intros Hin. apply in_map_iff in Hin. destruct Hin as [y [E Hy]].
    apply Hnin. rewrite (Hinj a y); [assumption|now left|now right|congruence].
  - apply IH. intros x y Hx Hy. apply Hinj; now right.
Qed.

(** X12.  For an empty cell of a 9x9 grid, [gen_possible_boards] returns at
    most nine grids, no two of them equal and none equal to the grid it
    was given, and each of them has exactly one empty cell fewer. *)
Theorem gen_possible_boards_children (b : board) (r c : nat) :
  is_9x9 b -> r < 9 -> c < 9 -> cell b r c = 0%Z ->
  exists kids,
    gen_possible_boards b (Z.of_nat r) (Z.of_nat c) = Ok kids /\
    length kids <= 9 /\ NoDup kids /\ ~ In b kids /\
    Forall (fun k => S (count_zeros k) = count_zeros b) kids.
Proof.
  intros Hb Hr Hc Hz.
  exists (map (Np.set_cell b r c) (legal_digits b r c)).
  assert (Hat : forall d, cell (Np.set_cell b r c d) r c = d).
  { intros d. rewrite (cell_set_cell Hb) by assumption.
    now rewrite !Nat.eqb_refl. }
  split; [now apply gen_possible_boards_eq|]. split; [|split; [|split]].
  - rewrite length_map. apply length_legal_digits.
  - apply NoDup_map_on; [apply sorted_NoDup, legal_digits_sorted|].
    intros x y _ _ E. rewrite <- (Hat x), <- (Hat y). now rewrite E.
  - intros Hin. apply in_map_iff in Hin. destruct Hin as [d [E Hd]].
    apply in_legal_digits in Hd. pose proof (Hat d) as Hd'.
    rewrite E in Hd'. lia.
  - apply Forall_forall. intros k Hk. apply in_map_iff in Hk.
    destruct Hk as [d [<- Hd]]. apply in_legal_digits in Hd.
    apply count_zeros_set_cell; try assumption. lia.
Qed.

Lemma gen_possible_boards_children_witness :
  exists kids,
    gen_possible_boards sample_board (Z.of_nat 0) (Z.of_nat 0) = Ok kids /\
    length kids <= 9 /\ NoDup kids /\ ~ In sample_board kids /\
    Forall (fun k => S (count_zeros k) = count_zeros sample_board) kids.
Proof.
  apply (@gen_possible_boards_children sample_board 0 0).
  - apply is_9x9b_is_9x9. reflexivity.
  - lia.
  - lia.
  - reflexivity.
Defined.

(** ** Boards of the wrong shape *)

(** X13.  The solver only works on boards of nine rows: given a board with
    fewer rows, the first [show_board] raises [IndexError] before anything
    is shown or expanded. *)
Theorem solve_backtracking_short_board (b : board) (fuel : nat) :
  length b < 9 ->
  solve_backtracking (S fuel) b = (Raised IndexError, []).
Proof.
  intros Hlen. unfold solve_backtracking. cbn [solve_loop pop].
  assert (Hshow : show_board b = Raise IndexError).
  { unfold show_board.
    destruct (forallb _ (seq 0 9)) eqn:E; [exfalso|reflexivity].
    rewrite forallb_forall in E.
    assert (H8 : In 8 (seq 0 9)) by (apply in_seq; lia).
    specialize (E 8 H8).
    destruct (nth_error b 8) as [row|] eqn:Hrow; [|discriminate].
    assert (nth_error b 8 <> None) by congruence.
    apply nth_error_Some in H. lia. }
  now rewrite Hshow.
Qed.

Lemma solve_backtracking_short_board_witness :
  solve_backtracking 1 [[1; 2; 3]%Z] = (Raised IndexError, []).
Proof.
  apply (@solve_backtracking_short_board [[1; 2; 3]%Z] 0). simpl. lia.
Defined.

(** * Further properties of the loader *)

Lemma string_get_none (s : string) (i : nat) :
  String.length s <= i -> String.get i s = None.
Proof.
  revert i; induction s as [|a s IH]; intros i Hi; simpl in *.
  - reflexivity.
  - destruct i as [|i]; [lia|]. apply IH. lia.
Qed.

Lemma parse_loop_app (s : string) (l1 l2 : list nat) (flat : list Z) :
  parse_loop s (l1 ++ l2) flat =
  (flat' <- parse_loop s l1 flat ;; parse_loop s l2 flat').
Proof.
  revert flat; induction l1 as [|i l1 IH]; intros flat; simpl; [reflexivity|].
  destruct (str_getitem s i) as [ch|e]; cbn [bind]; [|reflexivity].
  destruct (if isdigit ch then int_of_char ch else Ok 0%Z) as [v|e];
    cbn [bind]; [apply IH|reflexivity].
Qed.

Lemma parse_loop_ext (s s' : string) (idxs : list nat) (flat : list Z) :
  (forall i, In i idxs -> String.get i s = String.get i s') ->
  parse_loop s idxs flat = parse_loop s' idxs flat.
Proof.
  revert flat; induction idxs as [|i idxs IH]; intros flat H; simpl;
    [reflexivity|].
  unfold str_getitem. rewrite <- (H i) by now left.
  destruct (String.get i s) as [ch|]; cbn [bind]; [|reflexivity].
  destruct (if isdigit ch then int_of_char ch else Ok 0%Z) as [v|e];
    cbn [bind]; [|reflexivity].
  apply IH. intros j Hj. apply H. now right.
Qed.

(** X14.  On a line of at least 81 characters none of whose first 81
    characters is one that [isdigit] accepts and [int] rejects,
    [parse_from_string] succeeds: it returns a 9x9 grid with entries in
    0..9 whose cell [(r, c)] holds the value of character [9 * r + c] when
    that is one of ['1'] to ['9'], and 0 for any other character, ['0']
    included. *)
Theorem parse_from_string_decimal (s : string) :
  81 <= String.length s ->
  (forall i ch, i < 81 -> String.get i s = Some ch ->
                isdigit ch = true -> is_decimal ch = true) ->
  exists b,
    parse_from_string s = Ok b /\ is_9x9 b /\ entries_0_9 b /\
    forall r c, r < 9 -> c < 9 ->
      exists ch, String.get (9 * r + c) s = Some ch /\
                 cell b r c = digit_value ch.
Proof. exact (@parse_from_string_loads s). Qed.

Ltac line_chars :=
  let i := fresh "i" in
  let ch := fresh "ch" in
  let Hi := fresh "Hi" in
  let Hget := fresh "Hget" in
  intros i ch Hi Hget;
  do 81 (destruct i as [|i];
         [vm_compute in Hget; injection Hget as <-; vm_compute;
          intros; (reflexivity || discriminate)|]);
  lia.

Lemma parse_from_string_decimal_witness :
  exists b,
    parse_from_string
      "..51.36...976.5.838.....12....397..2..8...9..7..568....71.....448.2.156...29.47.."
    = Ok b /\ is_9x9 b /\ entries_0_9 b /\
    forall r c, r < 9 -> c < 9 ->
      exists ch,
        String.get (9 * r + c)
          "..51.36...976.5.838.....12....397..2..8...9..7..568....71.....448.2.156...29.47.."
        = Some ch /\
        cell b r c = digit_value ch.
Proof.
  apply parse_from_string_decimal.
  - vm_compute. repeat constructor.
  - line_chars.
Defined.

(** X15.  A line that is too short is an error: on a string of fewer than
    81 characters, none of which [isdigit] accepts and [int] rejects,
    [parse_from_string] raises [IndexError]. *)
Theorem parse_from_string_short (s : string) :
  String.length s < 81 ->
  (forall i ch, String.get i s = Some ch ->
                isdigit ch = true -> is_decimal ch = true) ->
  parse_from_string s = Raise IndexError.
Proof.
  intros Hlen Hchars. unfold parse_from_string. rewrite repeat_length.
  set (n := String.length s).
  replace (seq 0 81) with (seq 0 n ++ seq (0 + n) (81 - n))
    by (rewrite <- seq_app; f_equal; unfold n; lia).
  rewrite parse_loop_app.
  destruct (@parse_loop_spec s n 0 (repeat 0%Z 81)) as (flat & Hrun & _).
  - unfold n. simpl. lia.
  - rewrite repeat_length. unfold n. lia.
  - intros i ch _. apply Hchars.
  - rewrite Hrun. cbn [bind].
    destruct (81 - n) as [|k] eqn:Hk; [unfold n in Hk; lia|].
    cbn [seq parse_loop]. unfold str_getitem.
    rewrite string_get_none by (unfold n; lia). reflexivity.
Qed.

Lemma parse_from_string_short_witness :
  parse_from_string "53..7" = Raise IndexError.
Proof.
  apply parse_from_string_short.
  - vm_compute. repeat constructor.
  - intros i ch Hget.
    do 5 (destruct i as [|i];
          [vm_compute in Hget; injection Hget as <-; vm_compute;
           intros; (reflexivity || discriminate)|]).
    discriminate.
Defined.

(** X16.  Only the first 81 characters of a line count: whatever follows
    them, such as the newline that ends a line read from the puzzle file,
    changes neither the result nor whether the call succeeds. *)
Theorem parse_from_string_ignores_tail (s t : string) :
  81 <= String.length s ->
  parse_from_string (s ++ t) = parse_from_string s.
Proof.
  intros Hlen. unfold parse_from_string. rewrite repeat_length.
  rewrite (@parse_loop_ext (s ++ t) s); [reflexivity|].
  intros i Hi. apply in_seq in Hi. symmetry. apply append_correct1. lia.
Qed.

Lemma parse_from_string_ignores_tail_witness :
  parse_from_string
    ("..51.36...976.5.838.....12....397..2..8...9..7..568....71.....448.2.156...29.47.."
     ++ String (ascii_of_nat 10) EmptyString)
  = parse_from_string
    "..51.36...976.5.838.....12....397..2..8...9..7..568....71.....448.2.156...29.47..".
Proof.
  apply parse_from_string_ignores_tail. vm_compute. repeat constructor.
Defined.

(** X17.  Loading and then solving, as [main] does, cannot fail: for a line
    of at least 81 characters as in X14, [parse_from_string] returns a
    grid on which [solve_backtracking] never raises and, after finitely
    many iterations, returns [None] or a full grid that has the digit of
    the line in every cell where the line has one of ['1'] to ['9']. *)
Theorem parse_then_solve (s : string) :
  81 <= String.length s ->
  (forall i ch, i < 81 -> String.get i s = Some ch ->
                isdigit ch = true -> is_decimal ch = true) ->
  exists b,
    parse_from_string s = Ok b /\
    (forall fuel e, fst (solve_backtracking fuel b) <> Raised e) /\
    exists n, forall fuel, n <= fuel ->
      fst (solve_backtracking fuel b) = ReturnedNone \/
      exists g, fst (solve_backtracking fuel b) = Returned g /\ full g /\
        forall r c ch, r < 9 -> c < 9 ->
          String.get (9 * r + c) s = Some ch -> digit_value ch <> 0%Z ->
          cell g r c = digit_value ch.
Proof.
  intros Hlen Hchars.
  destruct (@parse_from_string_loads s Hlen Hchars) as (b & Hparse & Hb & _ & Hcells).
  exists b. split; [assumption|].
  set (P := fun x : board => is_9x9 x /\ extends b x).
  assert (P_shape : forall x, P x -> is_9x9 x) by (intros x H; exact (proj1 H)).
  assert (P_child : forall x r c d, P x -> r < 9 -> c < 9 ->
                    cell x r c = 0%Z -> (1 <= d <= 9)%Z ->
                    ~ blocked x r c d -> P (Np.set_cell x r c d)).
  { intros x r c d (Hx & Hext) Hr Hc Hz _ _. split.
    - now apply is_9x9_set_cell.
    - now apply extends_child. }
  assert (HP : Forall P [b]).
  { constructor; [|constructor]. split; [assumption|apply extends_refl]. }
  assert (Hinv : forall fuel,
             match fst (solve_loop fuel [b]) with
             | Returned g => P g /\ board_is_full g = true
             | Raised _ => False
             | _ => True
             end)
    by (intros fuel; exact (@solve_loop_inv P P_shape P_child fuel [b] HP)).
  split.
  - intros fuel e E. specialize (Hinv fuel).
    unfold solve_backtracking in E. now rewrite E in Hinv.
  - exists (S (tree_size (count_zeros b))). intros fuel Hfuel.
    assert (Hs : Forall is_9x9 [b]) by (constructor; [assumption|constructor]).
    assert (Hw : stack_weight [b] < fuel)
      by (rewrite stack_weight_cons; change (stack_weight []) with 0; lia).
    pose proof (solve_loop_terminates Hs Hw) as Hterm.
    specialize (Hinv fuel). unfold solve_backtracking.
    destruct (fst (solve_loop fuel [b])) as [g| | |];
      [right|now left|contradiction|contradiction].
    destruct Hinv as [[Hg Hext] Hfull].
    exists g. split; [reflexivity|]. split; [now apply board_is_full_iff|].
    intros r c ch Hr Hc Hget Hnz.
    destruct (Hcells r c Hr Hc) as (ch' & Hget' & Hcell).
    rewrite Hget in Hget'. injection Hget' as <-.
    rewrite <- Hcell. apply Hext; try assumption. now rewrite Hcell.
Qed.

Lemma parse_then_solve_witness :
  exists b,
    parse_from_string
      "..51.36...976.5.838.....12....397..2..8...9..7..568....71.....448.2.156...29.47.."
    = Ok b /\
    (forall fuel e, fst (solve_backtracking fuel b) <> Raised e) /\
    exists n, forall fuel, n <= fuel ->
      fst (solve_backtracking fuel b) = ReturnedNone \/
      exists g, fst (solve_backtracking fuel b) = Returned g /\ full g /\
        forall r c ch, r < 9 -> c < 9 ->
          String.get (9 * r + c)
            "..51.36...976.5.838.....12....397..2..8...9..7..568....71.....448.2.156...29.47.."
          = Some ch ->
          digit_value ch <> 0%Z -> cell g r c = digit_value ch.
Proof.
  apply parse_then_solve.
  - vm_compute. repeat constructor.
  - line_chars.
Defined.

(** * The printed board *)

Lemma format_row_cases (row : list Z) :
  (9 <= length row /\ exists t, format_row row = Ok t) \/
  (length row < 9 /\ format_row row = Raise IndexError).
Proof.
  do 9 (destruct row as [|? row]; [right; split; [simpl; lia|reflexivity]|]).
  left. split; [simpl; lia|]. simpl. eauto.
Qed.

Lemma line_cases (b : board) (i : nat) :
  (exists t, (row <- board_row b i ;; format_row row) = Ok t /\
             i < length b /\ 9 <= length (nth i b [])) \/
  ((row <- board_row b i ;; format_row row) = Raise IndexError /\
   ~ (i < length b /\ 9 <= length (nth i b []))).
Proof.
  unfold board_row. destruct (nth_error b i) as [row|] eqn:E; cbn [bind].
  - assert (Hi : i < length b) by (apply nth_error_Some; congruence).
    rewrite (nth_error_nth' b [] Hi) in E. injection E as E.
    rewrite E. destruct (format_row_cases row) as [[Hlen [t Ht]]|[Hlen Ht]].
    + left. exists t. auto.
    + right. split; [assumption|]. lia.
  - right. split; [reflexivity|]. apply nth_error_None in E. lia.
Qed.

Lemma show_board_forallb (b : board) :
  forallb (fun i => match nth_error b i with
                    | Some row => 9 <=? length row
                    | None => false
                    end) (seq 0 9) = true <->
  forall i, i < 9 -> i < length b /\ 9 <= length (nth i b []).
Proof.
  rewrite forallb_forall. split.
  - intros H i Hi. specialize (H i). rewrite in_seq in H.
    specialize (H ltac:(lia)).
    destruct (nth_error b i) as [row|] eqn:E; [|discriminate].
    assert (Hlt : i < length b) by (apply nth_error_Some; congruence).
    rewrite (nth_error_nth' b [] Hlt) in E. injection E as E.
    rewrite E. apply Nat.leb_le in H. auto.
  - intros H i Hi. apply in_seq in Hi. destruct (H i ltac:(lia)) as [Hlt Hlen].
    rewrite (nth_error_nth' b [] Hlt). now apply Nat.leb_le.
Qed.

Ltac next_line b i :=
  let t := fresh "t" in
  let E := fresh "E" in
  let H := fresh "Hline" in
  destruct (line_cases b i) as [(t & E & H)|(E & H)]; rewrite E; cbn [bind].

Ltac bad_line H :=
  match goal with
  | Hn : ~ (_ /\ _) |- _ => exfalso; apply Hn, H; lia
  end.

Lemma show_board_text_ok (b : board) :
  (forall i, i < 9 -> i < length b /\ 9 <= length (nth i b [])) ->
  exists t, show_board_text b = Ok t.
Proof.
  intros H. unfold show_board_text.
  next_line b 0; [|bad_line H].
  next_line b 1; [|bad_line H].
  next_line b 2; [|bad_line H].
  next_line b 3; [|bad_line H].
  next_line b 4; [|bad_line H].
  next_line b 5; [|bad_line H].
  next_line b 6; [|bad_line H].
  next_line b 7; [|bad_line H].
  next_line b 8; [|bad_line H].
  eauto.
Qed.

Lemma show_board_text_raise (b : board) :
  ~ (forall i, i < 9 -> i < length b /\ 9 <= length (nth i b [])) ->
  show_board_text b = Raise IndexError.
Proof.
  intros Hnot. unfold show_board_text.
  next_line b 0; [|reflexivity]. next_line b 1; [|reflexivity].
  next_line b 2; [|reflexivity]. next_line b 3; [|reflexivity].
  next_line b 4; [|reflexivity]. next_line b 5; [|reflexivity].
  next_line b 6; [|reflexivity]. next_line b 7; [|reflexivity].
  next_line b 8; [|reflexivity].
  exfalso. apply Hnot. intros i Hi.
  do 9 (destruct i as [|i]; [assumption|]). lia.
Qed.

(** X18.  [show_board] can print exactly the boards whose first nine rows
    exist and have at least nine entries each; further rows and entries
    are silently left out of the picture.  On any other board it raises
    [IndexError].  The solver's [show_board] fails in the same cases. *)
Theorem show_board_text_raises (b : board) :
  ((forall i, i < 9 -> i < length b /\ 9 <= length (nth i b [])) ->
   exists t, show_board_text b = Ok t) /\
  (~ (forall i, i < 9 -> i < length b /\ 9 <= length (nth i b [])) ->
   show_board_text b = Raise IndexError) /\
  show_board b = (t <- show_board_text b ;; Ok tt).
Proof.
  split; [apply show_board_text_ok|]. split; [apply show_board_text_raise|].
  unfold show_board.
  destruct (forallb _ (seq 0 9)) eqn:E.
  - pose proof (proj1 (show_board_forallb b) E) as Hrows.
    destruct (@show_board_text_ok b Hrows) as [t Ht]. now rewrite Ht.
  - rewrite show_board_text_raise; [reflexivity|].
    intros H. pose proof (proj2 (show_board_forallb b) H). congruence.
Qed.

(** ** Reading a printed board back *)



















(** * What the caller sees *)

Lemma solve_loop_shows_result (fuel : nat) (s : list board) (g : board) :
  fst (solve_loop fuel s) = Returned g ->
  exists evs, snd (solve_loop fuel s) = evs ++ [Shown g].
Proof.
  revert s; induction fuel as [|fuel IH]; intros s H; [discriminate|].
  cbn [solve_loop] in *.
  destruct (pop s) as [[rest b]|]; [|discriminate].
  destruct (show_board b); [|discriminate].
  destruct (board_is_full b).
  - simpl in H. injection H as <-. exists []. reflexivity.
  - destruct (next_unassigned_cell b) as [[row col]|]; [|discriminate].
    destruct (gen_possible_boards b row col) as [kids|]; [|discriminate].
    rewrite !fst_emit in H. destruct (IH _ H) as [evs Hevs].
    exists (Shown b :: Expanded b row col :: evs).
    cbn [emit snd]. rewrite Hevs. reflexivity.
Qed.

(** X20.  The solution is on the screen: whenever [solve_backtracking]
    returns a grid, the last thing the run did was to show that grid.
    ([main] prints nothing after the call in that case.) *)
Theorem solve_backtracking_shows_result (init : board) (fuel : nat) (g : board) :
  fst (solve_backtracking fuel init) = Returned g ->
  exists evs, snd (solve_backtracking fuel init) = evs ++ [Shown g].
Proof. apply solve_loop_shows_result. Qed.

Lemma solve_backtracking_shows_result_witness :
  exists evs,
    snd (solve_backtracking 200 sample_board) = evs ++ [Shown sample_solution].
Proof.
  apply (@solve_backtracking_shows_result sample_board 200 sample_solution).
  vm_compute. reflexivity.
Defined.

(** X21.  The solver does not validate or repair its input: started on a
    9x9 grid whose non-zero entries already break row, column or box
    uniqueness, every grid it returns breaks it as well. *)
Theorem solve_backtracking_invalid_input (init : board) (fuel : nat) (g : board) :
  is_9x9 init -> ~ valid init ->
  fst (solve_backtracking fuel init) = Returned g ->
  ~ valid g.
Proof.
  intros Hinit Hbad Hret Hvalid. apply Hbad.
  set (P := fun b : board => is_9x9 b /\ extends init b).
  assert (P_shape : forall b, P b -> is_9x9 b) by (intros b H; exact (proj1 H)).
  assert (P_child : forall b r c d, P b -> r < 9 -> c < 9 ->
                    cell b r c = 0%Z -> (1 <= d <= 9)%Z ->
                    ~ blocked b r c d -> P (Np.set_cell b r c d)).
  { intros b r c d (Hb & Hx) Hr Hc Hz _ _. split.
    - now apply is_9x9_set_cell.
    - now apply extends_child. }
  assert (HP : Forall P [init]).
  { constructor; [|constructor]. split; [assumption|apply extends_refl]. }
  pose proof (@solve_loop_inv P P_shape P_child fuel [init] HP) as Hinv.
  unfold solve_backtracking in Hret. rewrite Hret in Hinv.
  destruct Hinv as [[Hg Hext] Hfull].
  intros r1 c1 r2 c2 H1 H2 H3 H4 Hne Hu Hnz E.
  assert (Hnz2 : cell init r2 c2 <> 0%Z) by congruence.
  apply (Hvalid r1 c1 r2 c2); try assumption.
  - rewrite (Hext r1 c1); assumption.
  - rewrite (Hext r1 c1), (Hext r2 c2); assumption.
Qed.

Lemma solve_backtracking_invalid_input_witness :
  fst (solve_backtracking 1 conflict_board) = Returned conflict_board /\
  ~ valid conflict_board.
Proof.
  assert (Hret : fst (solve_backtracking 1 conflict_board) =
                 Returned conflict_board) by (vm_compute; reflexivity).
  split; [exact Hret|].
  apply (@solve_backtracking_invalid_input conflict_board 1 conflict_board).
  - apply is_9x9b_is_9x9. reflexivity.
  - intros H. apply (H 0 0 0 1); try lia.
    + intros [= ].
    + now left.
    + vm_compute. discriminate.
    + reflexivity.
  - exact Hret.
Defined.
